(** * Dictionary: the WordNet lookup of [app.py] and [dictionary.py]

    A shallow embedding of the two front ends of the repository:
    the page ([app.py]: [get_word_from_api], [get_word_data],
    [add_to_history], [pos_to_name], [format_output],
    [handle_search_input]) and the console ([dictionary.py]:
    [get_definitions_and_synonyms], [main]).

    Conventions.
    - Python [str] values are modelled as [string] over 7-bit characters;
      [lower], [strip], [title] and [capitalize] are given for that range and
      leave bytes above 127 alone.
    - A Python [set] of strings is a [gset string].  Python fixes no order
      for turning a set into a list; that order is the parameter
      [list_of_set].
    - The lexical database, the environment variable [WORDS_API_KEY] and
      the HTTP endpoint are parameters of the development.
    - Calls that leave the process (a database query, an HTTP request, a
      write to standard output) are recorded in a trace, see [Effect].
    - [get_word_from_api] and [get_word_data] are the bodies of the two
      functions that [app.py] decorates with [st.cache_data]; the decorated
      functions, with their stores and the clock, are in the module
      [cached]. *)

From Stdlib Require Import String Ascii List ZArith Lia.
From stdpp Require Import base decidable option list sets gmap strings pretty sorting.

Open Scope string_scope.
Open Scope list_scope.

(** ** Python string methods *)

Module str.

Definition code (c : ascii) : nat := nat_of_ascii c.

Definition isupper (c : ascii) : bool :=
  (65 <=? code c)%nat && (code c <=? 90)%nat.

Definition islower (c : ascii) : bool :=
  (97 <=? code c)%nat && (code c <=? 122)%nat.

Definition isalpha (c : ascii) : bool := isupper c || islower c.

(** [str.isspace] on the 7-bit range: tab, line feed, vertical tab, form
    feed, carriage return, the four separators 28..31 and the space. *)
Definition isspace (c : ascii) : bool :=
  ((9 <=? code c)%nat && (code c <=? 13)%nat)
  || ((28 <=? code c)%nat && (code c <=? 32)%nat).

Definition lower_char (c : ascii) : ascii :=
  if isupper c then ascii_of_nat (code c + 32) else c.

Definition upper_char (c : ascii) : ascii :=
  if islower c then ascii_of_nat (code c - 32) else c.

Fixpoint lower (s : string) : string :=
  match s with
  | EmptyString => EmptyString
  | String c s' => String (lower_char c) (lower s')
  end.

Fixpoint lstrip (s : string) : string :=
  match s with
  | EmptyString => EmptyString
  | String c s' => if isspace c then lstrip s' else s
  end.

Fixpoint rstrip (s : string) : string :=
  match s with
  | EmptyString => EmptyString
  | String c s' =>
      match rstrip s' with
      | EmptyString => if isspace c then EmptyString else String c EmptyString
      | r => String c r
      end
  end.

Definition strip (s : string) : string := rstrip (lstrip s).

(** [s.replace('_', ' ')] *)
Definition underscore : ascii := "_"%char.
Definition space : ascii := " "%char.

Fixpoint replace_underscore (s : string) : string :=
  match s with
  | EmptyString => EmptyString
  | String c s' =>
      String (if Ascii.eqb c underscore then space else c)
             (replace_underscore s')
  end.

(** [s.title()]: the first letter of every run of letters is put in upper
    case, the other letters of the run in lower case. *)
Fixpoint title_from (in_word : bool) (s : string) : string :=
  match s with
  | EmptyString => EmptyString
  | String c s' =>
      if isalpha c
      then String (if in_word then lower_char c else upper_char c)
                  (title_from true s')
      else String c (title_from false s')
  end.

Definition title (s : string) : string := title_from false s.

(** [s.capitalize()] *)
Definition capitalize (s : string) : string :=
  match s with
  | EmptyString => EmptyString
  | String c s' => String (upper_char c) (lower s')
  end.

(** [sep.join(l)] *)
Fixpoint join (sep : string) (l : list string) : string :=
  match l with
  | [] => EmptyString
  | [x] => x
  | x :: l' => x +:+ sep +:+ join sep l'
  end.

(** [c * n] for a one-character string, as in ['='*60]. *)
Fixpoint repeat (c : ascii) (n : nat) : string :=
  match n with
  | O => EmptyString
  | S n' => String c (repeat c n')
  end.

(** [sorted(l)] on strings: ascending in the order of character codes. *)
Definition le (a b : string) : Prop := String.leb a b = true.

#[global] Instance le_dec : RelDecision le.
Proof. intros a b. unfold le. apply _. Defined.

Definition sorted (l : list string) : list string := merge_sort le l.

(** Membership of a character. *)
Fixpoint contains (c : ascii) (s : string) : bool :=
  match s with
  | EmptyString => false
  | String c' s' => Ascii.eqb c c' || contains c s'
  end.

End str.

(** The normalisation both front ends start with: [word.lower().strip()]. *)
Definition normalize (word : string) : string := str.strip (str.lower word).

(** ** The lexical database (NLTK WordNet) *)

Module wordnet.

(** A lemma: [name()] and [antonyms()], the latter a list of lemmas. *)
#[local] Unset Elimination Schemes.
Inductive Lemma : Type :=
  MkLemma { name : string; antonyms : list Lemma }.
#[local] Set Elimination Schemes.

(** A synset: [definition()], [pos()], [examples()], [lemmas()]. *)
Record Synset : Type :=
  MkSynset { definition : string;
             pos : string;
             examples : list string;
             lemmas : list Lemma }.

End wordnet.

Abbreviation Lemma := wordnet.Lemma.
Abbreviation Synset := wordnet.Synset.

(** ** The remote word-data API (WordsAPI) *)

(** The JSON body of a 200 response, as far as [get_word_from_api] reads it.
    A key that may be absent is an [option].  Only bodies of this shape
    are covered: an object whose ['meanings'], when present, is a list of
    objects whose ['definitions'], ['synonyms'], ['antonyms'] and
    ['examples'], when present, are lists.  On a body of another shape the
    code raises a [TypeError] or an [AttributeError], which it does not
    catch. *)
Module json.

Record Defn : Type := MkDefn { definition : option string }.

Record Meaning : Type :=
  MkMeaning { partOfSpeech : option string;
              definitions : option (list Defn);
              synonyms : option (list string);
              antonyms : option (list string);
              examples : option (list string) }.

Record Body : Type := MkBody { meanings : option (list Meaning) }.

End json.

(** What [requests.get] followed by [response.json()] can do: raise a
    [requests.RequestException], or give a status code and a body that
    parses as JSON ([Some]) or does not ([None], a [ValueError]). *)
Inductive HttpOutcome : Type :=
| RequestException
| Response (status_code : Z) (body : option json.Body).

(** ** Traces *)

Inductive Effect : Type :=
| WordNetQuery (word : string)
| HttpGet (url : string)
| Stdout (text : string).

#[global] Instance Effect_eq_dec : EqDecision Effect.
Proof. solve_decision. Defined.

Definition Trace : Type := list Effect.

(** A computation that returns an [A] and leaves a trace. *)
Definition IO (A : Type) : Type := Trace * A.

Definition ret {A} (a : A) : IO A := ([], a).

Definition bind {A B} (m : IO A) (k : A -> IO B) : IO B :=
  let '(t1, a) := m in
  let '(t2, b) := k a in
  (t1 ++ t2, b).

Definition trace {A} (m : IO A) : Trace := fst m.
Definition result {A} (m : IO A) : A := snd m.

Declare Scope io_scope.
Delimit Scope io_scope with io.
Notation "x <- m ;; k" := (bind m (fun x => k))
  (at level 100, m at next level, right associativity) : io_scope.
Notation "m ;;; k" := (bind m (fun _ => k))
  (at level 100, right associativity) : io_scope.

(** The line feed, Python's ["\n"]. *)
Definition nl : string := String (ascii_of_nat 10) EmptyString.

(** [print(text)] writes the text and a newline. *)
Definition print (text : string) : IO unit := ([Stdout (text +:+ nl)], tt).

(** The words the database was asked for, in order. *)
Fixpoint queries (t : Trace) : list string :=
  match t with
  | [] => []
  | WordNetQuery word :: t' => word :: queries t'
  | _ :: t' => queries t'
  end.

(** The URLs requested, in order. *)
Fixpoint requests (t : Trace) : list string :=
  match t with
  | [] => []
  | HttpGet url :: t' => url :: requests t'
  | _ :: t' => requests t'
  end.

Definition is_stdout (e : Effect) : bool :=
  match e with Stdout _ => true | _ => false end.

(** A trace of writes to standard output and nothing else. *)
Definition only_stdout (t : Trace) : Prop :=
  Forall (fun e => is_stdout e = true) t.

(** Everything written to standard output, in order. *)
Fixpoint stdout (t : Trace) : string :=
  match t with
  | [] => EmptyString
  | Stdout s :: t' => s +:+ stdout t'
  | _ :: t' => stdout t'
  end.

(** ** The record a lookup builds

    The Python code builds a [dict] with the keys below.  While
    [get_word_data] runs its loop, ['examples'] and ['pos_tags'] hold sets;
    what it returns holds lists there, as the records of [get_word_from_api]
    do throughout.  The two type parameters are the types of these two
    fields.  A record without the key ['source'] has [source = None]. *)

Record Sense : Type := MkSense { text : string; pos : string }.

Record WordData (E P : Type) : Type :=
  MkWordData { word : string;
               definitions : list Sense;
               synonyms : gset string;
               antonyms : gset string;
               examples : E;
               pos_tags : P;
               source : option string }.

Arguments MkWordData {E P}.
Arguments word {E P}.
Arguments definitions {E P}.
Arguments synonyms {E P}.
Arguments antonyms {E P}.
Arguments examples {E P}.
Arguments pos_tags {E P}.
Arguments source {E P}.

Abbreviation WordRecord := (WordData (list string) (list string)).
Abbreviation WordSets := (WordData (gset string) (gset string)).

(** Assignment to one key, [data[key] = v]. *)
Definition set_definitions {E P} (v : list Sense) (data : WordData E P)
  : WordData E P :=
  MkWordData (word data) v (synonyms data) (antonyms data) (examples data)
             (pos_tags data) (source data).

Definition set_synonyms {E P} (v : gset string) (data : WordData E P)
  : WordData E P :=
  MkWordData (word data) (definitions data) v (antonyms data) (examples data)
             (pos_tags data) (source data).

Definition set_antonyms {E P} (v : gset string) (data : WordData E P)
  : WordData E P :=
  MkWordData (word data) (definitions data) (synonyms data) v (examples data)
             (pos_tags data) (source data).

Definition set_examples {E E' P} (v : E') (data : WordData E P)
  : WordData E' P :=
  MkWordData (word data) (definitions data) (synonyms data) (antonyms data) v
             (pos_tags data) (source data).

Definition set_pos_tags {E P P'} (v : P') (data : WordData E P)
  : WordData E P' :=
  MkWordData (word data) (definitions data) (synonyms data) (antonyms data)
             (examples data) v (source data).

(** The source of a record as the page tells it apart (the badge test
    [word_data.get('source') == 'WordsAPI']). *)
Inductive Source : Type := local | remote.

Definition source_of (word_data : WordRecord) : Source :=
  if decide (source word_data = Some "WordsAPI") then remote else local.

(** ** [app.py]: the lookup *)

Section Lookup.

(** [wordnet.synsets] *)
Variable synsets : string -> list Synset.
(** [os.getenv('WORDS_API_KEY')] *)
Variable WORDS_API_KEY : option string.
(** [requests.get(url, headers=..., timeout=4)] with the key sent in the
    headers, and [response.json()] *)
Variable requests_get : string -> string -> HttpOutcome.
(** [list(s)] for a set [s] *)
Variable list_of_set : gset string -> list string.

Definition wordnet_synsets (word : string) : IO (list Synset) :=
  ([WordNetQuery word], synsets word).

Definition http_get (url api_key : string) : IO HttpOutcome :=
  ([HttpGet url], requests_get url api_key).

(** The body of [for meaning in api_data['meanings']]. *)
Definition api_meaning (data : WordRecord) (meaning : json.Meaning)
  : WordRecord :=
  let pos := default "unknown" (json.partOfSpeech meaning) in
  let data := set_pos_tags (pos_tags data ++ [pos]) data in
  let data :=
    match json.definitions meaning with
    | Some defns =>
        set_definitions
          (definitions data
           ++ map (fun defn => MkSense (default "" (json.definition defn)) pos)
                  defns)
          data
    | None => data
    end in
  let data :=
    match json.synonyms meaning with
    | Some l => set_synonyms (synonyms data ∪ list_to_set l) data
    | None => data
    end in
  let data :=
    match json.antonyms meaning with
    | Some l => set_antonyms (antonyms data ∪ list_to_set l) data
    | None => data
    end in
  match json.examples meaning with
  | Some l => set_examples (examples data ++ take 2 l) data
  | None => data
  end.

Definition api_empty (word : string) : WordRecord :=
  MkWordData word [] ∅ ∅ [] [] (Some "WordsAPI").

(** [get_word_from_api] after a 200 response whose body parsed. *)
Definition api_record (word : string) (api_data : json.Body)
  : option WordRecord :=
  let data := api_empty word in
  let data :=
    match json.meanings api_data with
    | Some meanings => fold_left api_meaning meanings data
    | None => data
    end in
  let data :=
    set_examples (take 3 (list_of_set (list_to_set (examples data)))) data in
  match definitions data with
  | [] => None
  | _ => Some data
  end.

Definition api_url (word : string) : string :=
  "https://api.wordsapi.com/words/" +:+ word.

Definition get_word_from_api (word : string) : IO (option WordRecord) :=
  match WORDS_API_KEY with
  | None | Some EmptyString => ret None
  | Some api_key =>
      (response <- http_get (api_url word) api_key ;;
       match response with
       | RequestException => ret None
       | Response status_code body =>
           if decide (status_code ≠ 200%Z) then ret None
           else match body with
                | None => ret None
                | Some api_data => ret (api_record word api_data)
                end
       end)%io
  end.

(** The body of [for antonym in lemma.antonyms()]. *)
Definition add_antonym (data : WordSets) (antonym : Lemma) : WordSets :=
  set_antonyms
    (antonyms data ∪ {[ str.replace_underscore (wordnet.name antonym) ]}) data.

(** The body of [for lemma in synset.lemmas()]. *)
Definition add_lemma (word : string) (data : WordSets) (lemma : Lemma)
  : WordSets :=
  let lemma_name := str.replace_underscore (wordnet.name lemma) in
  let data :=
    if decide (lemma_name ≠ word)
    then set_synonyms (synonyms data ∪ {[ lemma_name ]}) data
    else data in
  fold_left add_antonym (wordnet.antonyms lemma) data.

(** The body of [for synset in synsets]. *)
Definition add_synset (word : string) (data : WordSets) (synset : Synset)
  : WordSets :=
  let pos := wordnet.pos synset in
  let data :=
    set_definitions
      (definitions data ++ [MkSense (wordnet.definition synset) pos]) data in
  let data := set_pos_tags (pos_tags data ∪ {[ pos ]}) data in
  let data :=
    match wordnet.examples synset with
    | [] => data
    | _ =>
        set_examples (examples data ∪ list_to_set (wordnet.examples synset))
                     data
    end in
  fold_left (add_lemma word) (wordnet.lemmas synset) data.

Definition local_empty (word : string) : WordSets :=
  MkWordData word [] ∅ ∅ ∅ ∅ None.

(** [get_word_data] once [synsets] is known to be non-empty. *)
Definition local_record (word : string) (synsets : list Synset) : WordRecord :=
  let data := fold_left (add_synset word) synsets (local_empty word) in
  let data := set_pos_tags (list_of_set (pos_tags data)) data in
  set_examples (take 3 (list_of_set (examples data))) data.

Definition get_word_data (word : string) : IO (option WordRecord) :=
  let word := normalize word in
  match word with
  | EmptyString => ret None
  | _ =>
      (synsets <- wordnet_synsets word ;;
       match synsets with
       | [] => get_word_from_api word
       | _ => ret (Some (local_record word synsets))
       end)%io
  end.

End Lookup.

(** ** [app.py]: formatting *)

Definition pos_map : gmap string string :=
  {[ "n" := "Noun"; "v" := "Verb"; "a" := "Adjective"; "r" := "Adverb";
     "s" := "Adjective Satellite" ]}.

(** [pos_map.get(pos_code, 'Unknown')] *)
Definition pos_to_name (pos_code : string) : string :=
  default "Unknown" (pos_map !! pos_code).

(** One pass of [for i, defn in enumerate(data['definitions'], 1)]; [i]
    counts from 0 here. *)
Definition definition_line (i : nat) (defn : Sense) : string :=
  pretty (S i) +:+ ". " +:+ text defn +:+ " _" +:+ pos_to_name (pos defn) +:+ "_"
  +:+ nl.

Definition definition_lines (defns : list Sense) : list string :=
  imap definition_line defns.

Definition example_line (ex : string) : string := "- _" +:+ ex +:+ "_" +:+ nl.

Definition format_output (data : WordRecord) : string :=
  let output := "**" +:+ str.title (word data) +:+ "**" in
  let output := output +:+ nl +:+ nl +:+ "**📖 Definitions:**" +:+ nl in
  let output := output +:+ String.concat "" (definition_lines (definitions data)) in
  let output :=
    if decide (synonyms data = ∅) then output
    else output +:+ nl +:+ "**🔗 Synonyms:**" +:+ nl
         +:+ str.join ", " (str.sorted (elements (synonyms data))) +:+ nl in
  let output :=
    if decide (antonyms data = ∅) then output
    else output +:+ nl +:+ "**❌ Antonyms:**" +:+ nl
         +:+ str.join ", " (str.sorted (elements (antonyms data))) +:+ nl in
  match examples data with
  | [] => output
  | _ => output +:+ nl +:+ "**💡 Examples:**" +:+ nl
         +:+ String.concat "" (map example_line (examples data))
  end.

(** ** [app.py]: the session *)

Record SessionState : Type :=
  MkSessionState { history : list string;
                   current_word : option string;
                   search_input : string;
                   search_triggered_by_enter : bool }.

(** The state a new session starts with. *)
Definition session_init : SessionState := MkSessionState [] None "" false.

Definition add_to_history (word : string) (st : SessionState) : SessionState :=
  if decide (word ∈ history st) then st
  else MkSessionState (take 5 (word :: history st)) (current_word st)
                      (search_input st) (search_triggered_by_enter st).

(** The [on_change] handler of the text input. *)
Definition handle_search_input (st : SessionState) : SessionState :=
  let search_val := str.strip (search_input st) in
  match search_val with
  | EmptyString => st
  | _ =>
      add_to_history search_val
        (MkSessionState (history st) (Some search_val) (search_input st) true)
  end.

(** The text input receives [typed]; its handler runs.  (Streamlit runs
    the handler when [typed] is not the text the input holds already.) *)
Definition enter (typed : string) (st : SessionState) : SessionState :=
  handle_search_input
    (MkSessionState (history st) (current_word st) typed
                    (search_triggered_by_enter st)).

(** [if search_button:] *)
Definition search_button (st : SessionState) : SessionState :=
  let search_input_value := str.strip (search_input st) in
  match search_input_value with
  | EmptyString => st
  | _ =>
      add_to_history search_input_value
        (MkSessionState (history st) (Some search_input_value)
                        (search_input st) (search_triggered_by_enter st))
  end.

(** The [Clear] button. *)
Definition clear (st : SessionState) : SessionState :=
  MkSessionState [] None (search_input st) (search_triggered_by_enter st).

(** A click on the [i]-th entry of the history in the sidebar. *)
Definition history_button (i : nat) (st : SessionState) : SessionState :=
  match history st !! i with
  | Some word =>
      MkSessionState (history st) (Some word) (search_input st)
                     (search_triggered_by_enter st)
  | None => st
  end.

(** The [New Search] button. *)
Definition new_search (st : SessionState) : SessionState :=
  MkSessionState (history st) None (search_input st)
                 (search_triggered_by_enter st).

(** The words offered when nothing was found. *)
Definition suggestions : list string :=
  ["Serendipity"; "Eloquent"; "Ephemeral"; "Plethora"; "Ubiquitous"].

(** A click on the [i]-th suggestion. *)
Definition suggestion_button (i : nat) (st : SessionState) : SessionState :=
  match suggestions !! i with
  | Some word =>
      MkSessionState (history st) (Some (str.lower word)) (search_input st)
                     (search_triggered_by_enter st)
  | None => st
  end.

(** What the user can do to the session. *)
Inductive PageEvent : Type :=
| Typed (text : string)
| SearchClicked
| ClearClicked
| HistoryClicked (i : nat)
| NewSearchClicked
| SuggestionClicked (i : nat).

Definition page_step (st : SessionState) (e : PageEvent) : SessionState :=
  match e with
  | Typed text => enter text st
  | SearchClicked => search_button st
  | ClearClicked => clear st
  | HistoryClicked i => history_button i st
  | NewSearchClicked => new_search st
  | SuggestionClicked i => suggestion_button i st
  end.

Definition page_run (events : list PageEvent) : SessionState :=
  fold_left page_step events session_init.

(** A run of [add_to_history], oldest call first. *)
Definition record_all (words : list string) (st : SessionState) : SessionState :=
  fold_left (fun st word => add_to_history word st) words st.

Section Page.

Variable synsets : string -> list Synset.
Variable WORDS_API_KEY : option string.
Variable requests_get : string -> string -> HttpOutcome.
Variable list_of_set : gset string -> list string.

(** [# Display results]: the lookup the page runs for a session state, if
    it runs one, given by the body of [get_word_data] on the word that is
    passed; the call itself goes through the decorator, see [cached]. *)
Definition display (st : SessionState) : option (IO (option WordRecord)) :=
  match current_word st with
  | None | Some EmptyString => None
  | Some current_word =>
      let word_input := str.strip current_word in
      match word_input with
      | EmptyString => None
      | _ =>
          Some (get_word_data synsets WORDS_API_KEY requests_get list_of_set
                              word_input)
      end
  end.

End Page.

(** ** [app.py]: the [st.cache_data] decorators

    [get_word_from_api] and [get_word_data] are decorated with
    [@st.cache_data(ttl=3600)]: a call whose argument was computed less
    than 3600 seconds ago returns the stored value and does not run the
    body; any other call runs the body and stores what it returns, [None]
    included, under the argument as passed.  The functions
    [get_word_from_api] and [get_word_data] above are the bodies; the
    decorated functions are the ones of this module.  A call reads the
    clock once ([now], in seconds). *)

Module cached.

Definition ttl : Z := 3600.

(** The two stores: for an argument, when its value was computed and the
    value. *)
Record Caches : Type :=
  MkCaches { api_cache : gmap string (Z * option WordRecord);
             data_cache : gmap string (Z * option WordRecord) }.

Definition no_caches : Caches := MkCaches ∅ ∅.

(** The value stored for [arg], if there is one and it has not expired. *)
Definition fresh (cache : gmap string (Z * option WordRecord)) (now : Z)
    (arg : string) : option (option WordRecord) :=
  match cache !! arg with
  | Some (stored, value) =>
      if decide (now < stored + ttl)%Z then Some value else None
  | None => None
  end.

Definition store_api (now : Z) (arg : string) (value : option WordRecord)
    (caches : Caches) : Caches :=
  MkCaches (<[arg := (now, value)]> (api_cache caches)) (data_cache caches).

Definition store_data (now : Z) (arg : string) (value : option WordRecord)
    (caches : Caches) : Caches :=
  MkCaches (api_cache caches) (<[arg := (now, value)]> (data_cache caches)).

Section Cached.

Variable synsets : string -> list Synset.
Variable WORDS_API_KEY : option string.
Variable requests_get : string -> string -> HttpOutcome.
Variable list_of_set : gset string -> list string.

(** The decorated [get_word_from_api]. *)
Definition get_word_from_api (now : Z) (caches : Caches) (word : string)
  : IO (option WordRecord * Caches) :=
  match fresh (api_cache caches) now word with
  | Some value => ret (value, caches)
  | None =>
      (value <- get_word_from_api WORDS_API_KEY requests_get list_of_set word ;;
       ret (value, store_api now word value caches))%io
  end.

(** The body of [get_word_data], whose fallback is the decorated
    [get_word_from_api]. *)
Definition get_word_data_body (now : Z) (caches : Caches) (word : string)
  : IO (option WordRecord * Caches) :=
  let word := normalize word in
  match word with
  | EmptyString => ret (None, caches)
  | _ =>
      (synsets <- wordnet_synsets synsets word ;;
       match synsets with
       | [] => get_word_from_api now caches word
       | _ => ret (Some (local_record list_of_set word synsets), caches)
       end)%io
  end.

(** The decorated [get_word_data]. *)
Definition get_word_data (now : Z) (caches : Caches) (word : string)
  : IO (option WordRecord * Caches) :=
  match fresh (data_cache caches) now word with
  | Some value => ret (value, caches)
  | None =>
      (computed <- get_word_data_body now caches word ;;
       ret (fst computed,
            store_data now word (fst computed) (snd computed)))%io
  end.

End Cached.

End cached.

(** ** [dictionary.py]: the console front end *)

Module dictionary.

Section Console.

Variable synsets : string -> list Synset.

(** The body of [for lemma in synset.lemmas()]. *)
Definition add_lemma (word : string) (synonyms : gset string) (lemma : Lemma)
  : gset string :=
  if decide (wordnet.name lemma ≠ word)
  then synonyms ∪ {[ str.replace_underscore (wordnet.name lemma) ]}
  else synonyms.

(** The body of [for synset in synsets]. *)
Definition add_synset (word : string) (acc : list string * gset string)
    (synset : Synset) : list string * gset string :=
  let '(definitions, synonyms) := acc in
  let definition := wordnet.definition synset in
  (definitions ++ [definition],
   fold_left (add_lemma word) (wordnet.lemmas synset) synonyms).

(** The two collections the function builds from the synsets. *)
Definition collect (word : string) (synsets : list Synset)
  : list string * gset string :=
  fold_left (add_synset word) synsets ([], ∅).

Definition rule : string := str.repeat "="%char 60.

Fixpoint print_all (lines : list string) : IO unit :=
  match lines with
  | [] => ret tt
  | line :: lines' => (print line ;;; print_all lines')%io
  end.

(** [# Display results] *)
Definition display_results (word : string) (definitions : list string)
    (synonyms : gset string) : IO unit :=
  (print (nl +:+ rule) ;;;
   print ("Word: " +:+ str.capitalize word) ;;;
   print rule ;;;
   print (nl +:+ "Definitions (" +:+ pretty (length definitions) +:+ "):") ;;;
   print_all (imap (fun i defn => "  " +:+ pretty (S i) +:+ ". " +:+ defn)
                   definitions) ;;;
   (if decide (synonyms = ∅) then print (nl +:+ "No synonyms found.")
    else (print (nl +:+ "Synonyms:") ;;;
          print_all (map (fun syn => "  - " +:+ syn)
                         (str.sorted (elements synonyms))))) ;;;
   print "")%io.

Definition get_definitions_and_synonyms (word : string) : IO bool :=
  let word := normalize word in
  (synsets <- ([WordNetQuery word], synsets word) ;;
   match synsets with
   | [] =>
       print ("Error: No definitions found for '" +:+ word +:+ "'") ;;;
       ret false
   | _ =>
       let '(definitions, synonyms) := collect word synsets in
       display_results word definitions synonyms ;;;
       ret true
   end)%io.

(** What one call of [input] gives: a line (without its line feed), a
    [KeyboardInterrupt], or an [EOFError]. *)
Inductive Stdin : Type :=
| Line (s : string)
| Interrupt
| EndOfFile.

(** How a run over a finite script of inputs ends: [sys.exit(code)], or
    [input] waiting for more. *)
Inductive Outcome : Type :=
| SysExit (code : Z)
| Waiting.

Definition prompt : IO unit := ([Stdout "Enter a word: "], tt).

(** [while True:] *)
Fixpoint loop (script : list Stdin) : IO Outcome :=
  (prompt ;;;
   match script with
   | [] => ret Waiting
   | Interrupt :: _ =>
       print (nl +:+ nl +:+ "Goodbye!") ;;; ret (SysExit 0)
   | EndOfFile :: script' =>
       print ("An error occurred: EOF when reading a line" +:+ nl) ;;;
       loop script'
   | Line s :: script' =>
       let word := str.strip s in
       if decide (str.lower word ∈ ["quit"; "exit"; "q"])
       then print "Goodbye!" ;;; ret (SysExit 0)
       else match word with
            | EmptyString => print ("Please enter a word." +:+ nl) ;;; loop script'
            | _ => get_definitions_and_synonyms word ;;; loop script'
            end
   end)%io.

Definition banner : IO unit :=
  (print rule ;;;
   print "NLTK WordNet Dictionary CLI" ;;;
   print rule ;;;
   print ("Type 'quit' or 'exit' to exit the program." +:+ nl))%io.

Definition main (script : list Stdin) : IO Outcome :=
  (banner ;;; loop script)%io.

End Console.

End dictionary.

(** ** Auxiliary definitions for the statements *)

(** The sense [add_synset] appends for a synset. *)
Definition sense_of (synset : Synset) : Sense :=
  MkSense (wordnet.definition synset) (wordnet.pos synset).

(** No API credential: the variable is unset, or set to the empty string
    ([if not api_key]). *)
Definition no_credential (WORDS_API_KEY : option string) : Prop :=
  WORDS_API_KEY = None \/ WORDS_API_KEY = Some "".

(** Every definition of the record carries a part of speech that is listed
    in ['pos_tags']. *)
Definition pos_listed (data : WordRecord) : Prop :=
  forall defn, defn ∈ definitions data -> pos defn ∈ pos_tags data.

(** [list(s)] lists the elements of the set [s], each once, in some
    order. *)
Definition lists_elements (list_of_set : gset string -> list string) : Prop :=
  forall s, NoDup (list_of_set s) /\ forall x, x ∈ list_of_set s <-> x ∈ s.

(** The sense [get_word_from_api] builds for a definition of a meaning. *)
Definition api_senses (meaning : json.Meaning) : list Sense :=
  map (fun defn =>
         MkSense (default "" (json.definition defn))
                 (default "unknown" (json.partOfSpeech meaning)))
      (default [] (json.definitions meaning)).

(** An input that ends the console loop: an interrupt, or a line that is
    quit, exit or q once stripped and put in lower case. *)
Definition ends_loop (item : dictionary.Stdin) : bool :=
  match item with
  | dictionary.Line s =>
      bool_decide (str.lower (str.strip s) ∈ ["quit"; "exit"; "q"])
  | dictionary.Interrupt => true
  | dictionary.EndOfFile => false
  end.

(** The words a script of inputs makes the console look up: the lines up
    to the first input that ends the loop, the blank ones left out,
    normalized. *)
Fixpoint looked_up (script : list dictionary.Stdin) : list string :=
  match script with
  | [] => []
  | item :: script' =>
      if ends_loop item then []
      else match item with
           | dictionary.Line s =>
               match str.strip s with
               | EmptyString => looked_up script'
               | _ => normalize s :: looked_up script'
               end
           | _ => looked_up script'
           end
  end.

(** ** Sample data *)

Module sample.

Definition lemma (name : string) : Lemma := wordnet.MkLemma name [].

(** A small database: an adjective with synonyms, an antonym and four
    examples, and a two-word noun whose lemma name has an underscore. *)
Definition happy : Synset :=
  wordnet.MkSynset "enjoying or showing joy" "a"
    ["a happy smile"; "spent many happy days"; "a happy marriage";
     "happy hour"]
    [lemma "happy"; wordnet.MkLemma "glad" [lemma "sad"]; lemma "well_off"].

Definition ice_cream : Synset :=
  wordnet.MkSynset "frozen dessert" "n" [] [lemma "ice_cream"; lemma "icecream"].

Definition db (word : string) : list Synset :=
  if decide (word = "happy") then [happy]
  else if decide (word = "ice_cream") then [ice_cream]
  else [].

(** A database without entries. *)
Definition no_entries (word : string) : list Synset := [].

(** An endpoint that cannot be reached. *)
Definition no_network (url api_key : string) : HttpOutcome := RequestException.

(** An endpoint that answers every request with one meaning whose part of
    speech is spelled out and whose synonyms include the word asked for. *)
Definition body : json.Body :=
  json.MkBody
    (Some [json.MkMeaning (Some "adjective")
             (Some [json.MkDefn (Some "feeling pleasure")])
             (Some ["happy"; "glad"]) (Some ["sad"]) (Some ["happy days"])]).

Definition endpoint (url api_key : string) : HttpOutcome :=
  Response 200 (Some body).

End sample.

(** Decides a closed decidable statement by evaluation. *)
Ltac by_evaluation := apply (bool_decide_unpack _); vm_compute; exact I.

(** * Properties *)

(** ** Traces and folds *)

Lemma result_bind {A B} (m : IO A) (k : A -> IO B) :
  result (bind m k) = result (k (result m)).
Proof. destruct m as [t a]; simpl. destruct (k a); reflexivity. Qed.

Lemma trace_bind {A B} (m : IO A) (k : A -> IO B) :
  trace (bind m k) = trace m ++ trace (k (result m)).
Proof. destruct m as [t a]; simpl. destruct (k a); reflexivity. Qed.

Lemma io_eq {A} (m : IO A) : m = (trace m, result m).
Proof. destruct m; reflexivity. Qed.

(** A property of the accumulator that every pass of a loop keeps holds
    after the loop. *)
Lemma fold_left_inv {A B} (f : A -> B -> A) (P : A -> Prop) (l : list B) :
  forall a, P a -> (forall a b, P a -> b ∈ l -> P (f a b)) -> P (fold_left f l a).
Proof.
  induction l as [|b l IH]; intros a Ha Hstep; simpl; [exact Ha|].
  apply IH.
  - apply Hstep; [exact Ha | left].
  - intros a' b' Ha' Hb'. apply Hstep; [exact Ha' | right; exact Hb'].
Qed.

(** ** Python string methods *)

Lemma replace_underscore_no_underscore (s : string) :
  str.contains str.underscore (str.replace_underscore s) = false.
Proof.
  induction s as [|c s IH]; [reflexivity|].
  cbn [str.contains str.replace_underscore]. rewrite IH, orb_false_r.
  destruct (Ascii.eqb c str.underscore) eqn:E; [reflexivity|].
  rewrite Ascii.eqb_sym. exact E.
Qed.

Lemma replace_underscore_id (s : string) :
  str.contains str.underscore s = false -> str.replace_underscore s = s.
Proof.
  induction s as [|c s IH]; [reflexivity|].
  cbn [str.contains str.replace_underscore].
  intros H. apply orb_false_iff in H as [Hc Hs].
  rewrite Ascii.eqb_sym in Hc. rewrite Hc, (IH Hs). reflexivity.
Qed.

(** Replacing underscores in [s] gives a string without spaces only if [s]
    has no underscore. *)
Lemma replace_underscore_no_space (s : string) :
  str.contains str.space (str.replace_underscore s) = false ->
  str.contains str.underscore s = false.
Proof.
  induction s as [|c s IH]; [reflexivity|].
  cbn [str.contains str.replace_underscore].
  intros H. apply orb_false_iff in H as [Hc Hs].
  rewrite (IH Hs), orb_false_r.
  destruct (Ascii.eqb c str.underscore) eqn:E.
  - discriminate Hc.
  - rewrite Ascii.eqb_sym. exact E.
Qed.

(** For a word without underscore and without space, a lemma name is the
    word exactly when its form with underscores replaced is. *)
Lemma replace_underscore_eq_word (word name : string) :
  str.contains str.underscore word = false ->
  str.contains str.space word = false ->
  str.replace_underscore name = word <-> name = word.
Proof.
  intros Hu Hs. split.
  - intros H. rewrite <- H in Hs.
    apply replace_underscore_no_space in Hs.
    rewrite (replace_underscore_id _ Hs) in H. exact H.
  - intros ->. apply replace_underscore_id, Hu.
Qed.

Lemma string_append_empty_r (s : string) : s +:+ "" = s.
Proof.
  induction s as [|c s IH]; [reflexivity|].
  change (String c (s +:+ "") = String c s). rewrite IH. reflexivity.
Qed.

Lemma string_append_assoc (a b c : string) :
  (a +:+ b) +:+ c = a +:+ (b +:+ c).
Proof.
  induction a as [|x a IH]; [reflexivity|].
  change (String x ((a +:+ b) +:+ c) = String x (a +:+ (b +:+ c))).
  rewrite IH. reflexivity.
Qed.

(** ** The loop of [get_word_data] *)

Section LocalLoop.

Variable w : string.

Lemma add_antonyms_synonyms (l : list Lemma) (data : WordSets) :
  synonyms (fold_left add_antonym l data) = synonyms data.
Proof.
  apply (fold_left_inv add_antonym (fun d => synonyms d = synonyms data));
    [reflexivity | intros a b Ha _; exact Ha].
Qed.

Lemma add_antonyms_definitions (l : list Lemma) (data : WordSets) :
  definitions (fold_left add_antonym l data) = definitions data.
Proof.
  apply (fold_left_inv add_antonym (fun d => definitions d = definitions data));
    [reflexivity | intros a b Ha _; exact Ha].
Qed.

Lemma add_antonyms_source (l : list Lemma) (data : WordSets) :
  source (fold_left add_antonym l data) = source data.
Proof.
  apply (fold_left_inv add_antonym (fun d => source d = source data));
    [reflexivity | intros a b Ha _; exact Ha].
Qed.

Lemma add_lemma_synonyms (data : WordSets) (lemma : Lemma) :
  synonyms (add_lemma w data lemma)
  = if decide (str.replace_underscore (wordnet.name lemma) ≠ w)
    then synonyms data ∪ {[ str.replace_underscore (wordnet.name lemma) ]}
    else synonyms data.
Proof.
  unfold add_lemma. rewrite add_antonyms_synonyms.
  destruct (decide _); reflexivity.
Qed.

Lemma add_lemma_definitions (data : WordSets) (lemma : Lemma) :
  definitions (add_lemma w data lemma) = definitions data.
Proof.
  unfold add_lemma. rewrite add_antonyms_definitions.
  destruct (decide _); reflexivity.
Qed.

Lemma add_lemma_source (data : WordSets) (lemma : Lemma) :
  source (add_lemma w data lemma) = source data.
Proof.
  unfold add_lemma. rewrite add_antonyms_source.
  destruct (decide _); reflexivity.
Qed.

Lemma add_lemmas_definitions (l : list Lemma) (data : WordSets) :
  definitions (fold_left (add_lemma w) l data) = definitions data.
Proof.
  apply (fold_left_inv (add_lemma w) (fun d => definitions d = definitions data));
    [reflexivity | intros a b Ha _; rewrite add_lemma_definitions; exact Ha].
Qed.

Lemma add_lemmas_source (l : list Lemma) (data : WordSets) :
  source (fold_left (add_lemma w) l data) = source data.
Proof.
  apply (fold_left_inv (add_lemma w) (fun d => source d = source data));
    [reflexivity | intros a b Ha _; rewrite add_lemma_source; exact Ha].
Qed.

(** The synonyms after the lemma loop: what was there, and the word form of
    every lemma that is not the word. *)
Lemma add_lemmas_synonyms (l : list Lemma) :
  forall (data : WordSets) (x : string),
    x ∈ synonyms (fold_left (add_lemma w) l data)
    <-> x ∈ synonyms data
        \/ exists lemma, lemma ∈ l
             /\ x = str.replace_underscore (wordnet.name lemma) /\ x ≠ w.
Proof.
  induction l as [|lemma l IH]; intros data x; simpl.
  - split; [auto | intros [H | (lemma & H & _)]; [exact H | inversion H]].
  - rewrite IH, add_lemma_synonyms. split.
    + intros [H | (lemma' & Hin & Hx & Hne)].
      * destruct (decide _) as [Hd|Hd]; [|left; exact H].
        apply elem_of_union in H as [H|H]; [left; exact H|].
        apply elem_of_singleton in H. subst x.
        right. exists lemma. split; [left | split; [reflexivity | exact Hd]].
      * right. exists lemma'. split; [right; exact Hin | split; assumption].
    + intros [H | (lemma' & Hin & Hx & Hne)].
      * left. destruct (decide _); [apply elem_of_union; left|]; exact H.
      * apply elem_of_cons in Hin as [-> | Hin].
        -- left. subst x. rewrite decide_True by exact Hne.
           apply elem_of_union; right. apply elem_of_singleton; reflexivity.
        -- right. exists lemma'. split; [exact Hin | split; assumption].
Qed.

Lemma add_synset_definitions (data : WordSets) (synset : Synset) :
  definitions (add_synset w data synset) = definitions data ++ [sense_of synset].
Proof.
  unfold add_synset. rewrite add_lemmas_definitions.
  destruct (wordnet.examples synset); reflexivity.
Qed.

Lemma add_synset_source (data : WordSets) (synset : Synset) :
  source (add_synset w data synset) = source data.
Proof.
  unfold add_synset. rewrite add_lemmas_source.
  destruct (wordnet.examples synset); reflexivity.
Qed.

Lemma add_synset_synonyms (data : WordSets) (synset : Synset) (x : string) :
  x ∈ synonyms (add_synset w data synset)
  <-> x ∈ synonyms data
      \/ exists lemma, lemma ∈ wordnet.lemmas synset
           /\ x = str.replace_underscore (wordnet.name lemma) /\ x ≠ w.
Proof.
  unfold add_synset. rewrite add_lemmas_synonyms.
  destruct (wordnet.examples synset); reflexivity.
Qed.

(** The definitions after the synset loop: one sense per synset, in the
    order of the database. *)
Lemma add_synsets_definitions (l : list Synset) :
  forall data : WordSets,
    definitions (fold_left (add_synset w) l data)
    = definitions data ++ map sense_of l.
Proof.
  induction l as [|synset l IH]; intros data; simpl.
  - rewrite app_nil_r. reflexivity.
  - rewrite IH, add_synset_definitions, <- app_assoc. reflexivity.
Qed.

Lemma add_synsets_source (l : list Synset) (data : WordSets) :
  source (fold_left (add_synset w) l data) = source data.
Proof.
  apply (fold_left_inv (add_synset w) (fun d => source d = source data));
    [reflexivity | intros a b Ha _; rewrite add_synset_source; exact Ha].
Qed.

Lemma add_synsets_synonyms (l : list Synset) :
  forall (data : WordSets) (x : string),
    x ∈ synonyms (fold_left (add_synset w) l data)
    <-> x ∈ synonyms data
        \/ exists synset lemma, synset ∈ l /\ lemma ∈ wordnet.lemmas synset
             /\ x = str.replace_underscore (wordnet.name lemma) /\ x ≠ w.
Proof.
  induction l as [|synset l IH]; intros data x; simpl.
  - split; [auto | intros [H | (s & _ & H & _)]; [exact H | inversion H]].
  - rewrite IH, add_synset_synonyms. split.
    + intros [[H | (lemma & Hin & Hx)] | (s & lemma & Hs & Hrest)].
      * left; exact H.
      * right. exists synset, lemma. split; [left | split; assumption].
      * right. exists s, lemma. split; [right; exact Hs | exact Hrest].
    + intros [H | (s & lemma & Hs & Hin & Hx)].
      * left; left; exact H.
      * apply elem_of_cons in Hs as [-> | Hs].
        -- left; right. exists lemma. split; assumption.
        -- right. exists s, lemma. split; [exact Hs | split; assumption].
Qed.

End LocalLoop.

(** ** [get_word_data], case by case *)

Section LookupCases.

Variable synsets : string -> list Synset.
Variable WORDS_API_KEY : option string.
Variable requests_get : string -> string -> HttpOutcome.
Variable list_of_set : gset string -> list string.

Local Abbreviation lookup := (get_word_data synsets WORDS_API_KEY requests_get list_of_set).
Local Abbreviation fetch := (get_word_from_api WORDS_API_KEY requests_get list_of_set).

Lemma get_word_data_empty (raw : string) :
  normalize raw = "" -> lookup raw = ([], None).
Proof. intros H. unfold get_word_data. rewrite H. reflexivity. Qed.

Lemma get_word_data_local (raw : string) :
  normalize raw ≠ "" -> synsets (normalize raw) ≠ [] ->
  lookup raw
  = ([WordNetQuery (normalize raw)],
     Some (local_record list_of_set (normalize raw) (synsets (normalize raw)))).
Proof.
  intros Hw Hs. unfold get_word_data.
  destruct (normalize raw) as [|c w] eqn:E; [congruence|].
  unfold wordnet_synsets. cbn [bind].
  destruct (synsets (String c w)) as [|s l]; [congruence | reflexivity].
Qed.

Lemma get_word_data_miss (raw : string) :
  normalize raw ≠ "" -> synsets (normalize raw) = [] ->
  lookup raw
  = (WordNetQuery (normalize raw) :: trace (fetch (normalize raw)),
     result (fetch (normalize raw))).
Proof.
  intros Hw Hs. unfold get_word_data.
  destruct (normalize raw) as [|c w] eqn:E; [congruence|].
  unfold wordnet_synsets. cbn [bind]. rewrite Hs.
  destruct (get_word_from_api _ _ _ _); reflexivity.
Qed.

(** Without a credential the fallback returns [None] and sends nothing. *)
Lemma get_word_from_api_no_credential (word : string) :
  no_credential WORDS_API_KEY -> fetch word = ([], None).
Proof.
  intros [H | H]; unfold get_word_from_api; rewrite H; reflexivity.
Qed.

(** The fallback returns a record only from a 200 response whose body
    parsed. *)
Lemma get_word_from_api_Some (word : string) (data : WordRecord) :
  result (fetch word) = Some data ->
  exists api_key api_data,
    WORDS_API_KEY = Some api_key /\ api_key ≠ ""
    /\ requests_get (api_url word) api_key = Response 200 (Some api_data)
    /\ api_record list_of_set word api_data = Some data.
Proof.
  unfold get_word_from_api.
  destruct WORDS_API_KEY as [[|c k]|]; [discriminate | | discriminate].
  unfold http_get. cbn [bind].
  destruct (requests_get _ _) as [|status body] eqn:E; [discriminate|].
  destruct (decide (status ≠ 200%Z)) as [Hne|Heq]; [discriminate|].
  destruct body as [api_data|]; [|discriminate].
  cbn. intros H. exists (String c k), api_data.
  assert (status = 200%Z) as -> by (apply dec_stable; exact Heq).
  split; [reflexivity|]. split; [discriminate|]. split; [exact E | exact H].
Qed.

(** A record comes from the local entries, or, when there are none, from the
    fallback. *)
Lemma get_word_data_Some (raw : string) (data : WordRecord) :
  result (lookup raw) = Some data ->
  normalize raw ≠ ""
  /\ ((synsets (normalize raw) ≠ []
       /\ data = local_record list_of_set (normalize raw)
                              (synsets (normalize raw)))
      \/ (synsets (normalize raw) = []
          /\ result (fetch (normalize raw)) = Some data)).
Proof.
  intros H.
  destruct (decide (normalize raw = "")) as [He|Hne].
  { rewrite (get_word_data_empty _ He) in H. discriminate. }
  split; [exact Hne|].
  destruct (decide (synsets (normalize raw) = [])) as [Hs|Hs].
  - right. rewrite (get_word_data_miss _ Hne Hs) in H. auto.
  - left. rewrite (get_word_data_local _ Hne Hs) in H.
    cbn in H. split; [exact Hs | congruence].
Qed.

Lemma local_record_definitions (w : string) (l : list Synset) :
  definitions (local_record list_of_set w l) = map sense_of l.
Proof. unfold local_record. cbn. apply add_synsets_definitions. Qed.

Lemma local_record_source (w : string) (l : list Synset) :
  source (local_record list_of_set w l) = None.
Proof. unfold local_record. cbn. apply add_synsets_source. Qed.

Lemma local_record_synonyms (w : string) (l : list Synset) (x : string) :
  x ∈ synonyms (local_record list_of_set w l)
  <-> exists synset lemma, synset ∈ l /\ lemma ∈ wordnet.lemmas synset
        /\ x = str.replace_underscore (wordnet.name lemma) /\ x ≠ w.
Proof.
  unfold local_record. cbn. rewrite add_synsets_synonyms. cbn.
  split; [intros [H|H]; [set_solver | exact H] | auto].
Qed.

(** C1. For every word with at least one entry in the local database,
    the lookup returns a record; its source is [local] (it does not carry
    the API's source mark) and its list of definitions is non-empty: there
    is one definition per entry, in the order of the database. *)
Theorem lookup_local_entries (raw : string) :
  normalize raw ≠ "" -> synsets (normalize raw) ≠ [] ->
  exists data,
    result (lookup raw) = Some data
    /\ source_of data = local
    /\ definitions data ≠ []
    /\ definitions data = map sense_of (synsets (normalize raw)).
Proof.
  intros Hw Hs. rewrite (get_word_data_local _ Hw Hs).
  eexists. split; [reflexivity|].
  rewrite local_record_definitions. unfold source_of.
  rewrite local_record_source. split; [|split; [|reflexivity]].
  - case_decide; [discriminate | reflexivity].
  - destruct (synsets (normalize raw)); [congruence | discriminate].
Qed.

(** C3, as the code has it.
    For every input that is empty after lowercasing and
    stripping whitespace, [get_word_data] returns [None] and queries
    neither the database nor the API; it returns the same for every word
    without local or remote data. *)
Theorem lookup_empty_input (raw : string) :
  normalize raw = "" ->
  result (lookup raw) = None
  /\ trace (lookup raw) = []
  /\ (forall word,
        synsets (normalize word) = [] ->
        result (fetch (normalize word)) = None ->
        result (lookup word) = result (lookup raw)).
Proof.
  intros H. rewrite (get_word_data_empty _ H).
  split; [reflexivity|]. split; [reflexivity|].
  intros word Hs Hf.
  destruct (decide (normalize word = "")) as [He|Hne].
  - rewrite (get_word_data_empty _ He). reflexivity.
  - rewrite (get_word_data_miss _ Hne Hs). exact Hf.
Qed.

(** C5. For every word without local entries, when no API credential is
    configured, the lookup returns [None]; the fallback itself returns
    [None] without raising and without sending a request. *)
Theorem lookup_no_entry_no_credential (raw : string) :
  no_credential WORDS_API_KEY -> synsets (normalize raw) = [] ->
  result (lookup raw) = None
  /\ fetch (normalize raw) = ([], None)
  /\ requests (trace (lookup raw)) = [].
Proof.
  intros Hk Hs.
  pose proof (get_word_from_api_no_credential (normalize raw) Hk) as Hf.
  destruct (decide (normalize raw = "")) as [He|Hne].
  - rewrite (get_word_data_empty _ He). auto.
  - rewrite (get_word_data_miss _ Hne Hs), Hf. auto.
Qed.

End LookupCases.

(** ** The loop of [get_word_from_api] *)

Lemma api_meaning_pos_listed (data : WordRecord) (meaning : json.Meaning) :
  pos_listed data -> pos_listed (api_meaning data meaning).
Proof.
  unfold pos_listed, api_meaning. intros H defn.
  destruct meaning as [p ds ss ants exs].
  destruct ds, ss, ants, exs; cbn; intros Hin; apply elem_of_app;
    try (left; apply H; exact Hin);
    (apply elem_of_app in Hin as [Hd | Hd];
     [left; apply H; exact Hd
     | right; apply list_elem_of_fmap in Hd as (j & -> & _); cbn; left]).
Qed.

Lemma api_record_pos_listed (list_of_set : gset string -> list string)
    (word : string) (api_data : json.Body) (data : WordRecord) :
  api_record list_of_set word api_data = Some data -> pos_listed data.
Proof.
  unfold api_record.
  set (d := match json.meanings api_data with
            | Some meanings => fold_left api_meaning meanings (api_empty word)
            | None => api_empty word
            end).
  assert (pos_listed d) as Hd.
  { subst d. destruct (json.meanings api_data) as [meanings|].
    - apply fold_left_inv; [intros x Hx; inversion Hx|].
      intros a b Ha _. apply api_meaning_pos_listed, Ha.
    - intros x Hx; inversion Hx. }
  cbn. destruct (definitions d) eqn:E; [discriminate|].
  intros [= <-]. intros defn. cbn. apply Hd.
Qed.

Lemma api_record_examples (list_of_set : gset string -> list string)
    (word : string) (api_data : json.Body) (data : WordRecord) :
  api_record list_of_set word api_data = Some data -> length (examples data) <= 3.
Proof.
  unfold api_record. cbn.
  destruct (definitions _); [discriminate|].
  intros [= <-]. cbn. rewrite length_take. lia.
Qed.

Lemma local_record_examples (list_of_set : gset string -> list string)
    (w : string) (l : list Synset) :
  length (examples (local_record list_of_set w l)) <= 3.
Proof. unfold local_record. cbn. rewrite length_take. lia. Qed.

(** ** [pos_to_name] *)

(** The codes of the table. *)
Lemma pos_to_name_unknown (pos_code : string) :
  pos_to_name pos_code = "Unknown" <-> pos_code ∉ ["n"; "v"; "a"; "r"; "s"].
Proof.
  split.
  - intros H Hin. repeat (apply elem_of_cons in Hin as [-> | Hin]);
      try (vm_compute in H; discriminate H). inversion Hin.
  - intros H. unfold pos_to_name, pos_map.
    rewrite !not_elem_of_cons in H. destruct H as (? & ? & ? & ? & ? & _).
    rewrite !lookup_insert_ne by congruence.
    rewrite lookup_singleton_ne by congruence. reflexivity.
Qed.

(** ** The loop of [get_definitions_and_synonyms] *)

Section ConsoleLoop.

Variable w : string.

Lemma console_add_lemmas (l : list Lemma) :
  forall (synonyms : gset string) (x : string),
    x ∈ fold_left (dictionary.add_lemma w) l synonyms
    <-> x ∈ synonyms
        \/ exists lemma, lemma ∈ l
             /\ x = str.replace_underscore (wordnet.name lemma)
             /\ wordnet.name lemma ≠ w.
Proof.
  induction l as [|lemma l IH]; intros acc x; cbn [fold_left].
  - split; [auto | intros [H | (lemma & H & _)]; [exact H | inversion H]].
  - rewrite IH. unfold dictionary.add_lemma. split.
    + intros [H | (lemma' & Hin & Hx & Hne)].
      * destruct (decide _) as [Hd|Hd]; [|left; exact H].
        apply elem_of_union in H as [H|H]; [left; exact H|].
        apply elem_of_singleton in H. subst x.
        right. exists lemma. split; [left | split; [reflexivity | exact Hd]].
      * right. exists lemma'. split; [right; exact Hin | split; assumption].
    + intros [H | (lemma' & Hin & Hx & Hne)].
      * left. destruct (decide _); [apply elem_of_union; left|]; exact H.
      * apply elem_of_cons in Hin as [-> | Hin].
        -- left. subst x. rewrite decide_True by exact Hne.
           apply elem_of_union; right. apply elem_of_singleton; reflexivity.
        -- right. exists lemma'. split; [exact Hin | split; assumption].
Qed.

Lemma console_add_synsets (l : list Synset) :
  forall (definitions : list string) (synonyms : gset string),
    fst (fold_left (dictionary.add_synset w) l (definitions, synonyms))
    = definitions ++ map wordnet.definition l
    /\ forall x,
        x ∈ snd (fold_left (dictionary.add_synset w) l (definitions, synonyms))
        <-> x ∈ synonyms
            \/ exists synset lemma, synset ∈ l /\ lemma ∈ wordnet.lemmas synset
                 /\ x = str.replace_underscore (wordnet.name lemma)
                 /\ wordnet.name lemma ≠ w.
Proof.
  induction l as [|synset l IH]; intros ds ss; simpl.
  - rewrite app_nil_r. split; [reflexivity|]. intros x.
    split; [auto | intros [H | (s & _ & H & _)]; [exact H | inversion H]].
  - destruct (IH (ds ++ [wordnet.definition synset])
                 (fold_left (dictionary.add_lemma w) (wordnet.lemmas synset) ss))
      as [IHd IHs].
    split; [rewrite IHd, <- app_assoc; reflexivity|].
    intros x. rewrite IHs, console_add_lemmas. split.
    + intros [[H | (lemma & Hin & Hx)] | (s & lemma & Hs & Hrest)].
      * left; exact H.
      * right. exists synset, lemma. split; [left | split; assumption].
      * right. exists s, lemma. split; [right; exact Hs | exact Hrest].
    + intros [H | (s & lemma & Hs & Hin & Hx)].
      * left; left; exact H.
      * apply elem_of_cons in Hs as [-> | Hs].
        -- left; right. exists lemma. split; assumption.
        -- right. exists s, lemma. split; [exact Hs | split; assumption].
Qed.

(** The console's definitions: the definition of every synset, in the
    order of the database. *)
Lemma collect_definitions (l : list Synset) :
  fst (dictionary.collect w l) = map wordnet.definition l.
Proof. unfold dictionary.collect. apply console_add_synsets. Qed.

(** The console's synonyms: the word form of every lemma whose name is not
    the word. *)
Lemma collect_synonyms (l : list Synset) (x : string) :
  x ∈ snd (dictionary.collect w l)
  <-> exists synset lemma, synset ∈ l /\ lemma ∈ wordnet.lemmas synset
        /\ x = str.replace_underscore (wordnet.name lemma)
        /\ wordnet.name lemma ≠ w.
Proof.
  unfold dictionary.collect.
  destruct (console_add_synsets l [] ∅) as [_ H]. rewrite H.
  split; [intros [Hx|Hx]; [set_solver | exact Hx] | auto].
Qed.

End ConsoleLoop.

(** ** [get_definitions_and_synonyms], case by case *)

Lemma console_found (synsets : string -> list Synset) (raw : string) :
  synsets (normalize raw) ≠ [] ->
  dictionary.get_definitions_and_synonyms synsets raw
  = (WordNetQuery (normalize raw)
       :: trace (dictionary.display_results (normalize raw)
                   (fst (dictionary.collect (normalize raw)
                                            (synsets (normalize raw))))
                   (snd (dictionary.collect (normalize raw)
                                            (synsets (normalize raw))))),
     true).
Proof.
  intros Hs. unfold dictionary.get_definitions_and_synonyms. cbn [bind].
  destruct (synsets (normalize raw)) as [|s l] eqn:E; [congruence|].
  destruct (dictionary.collect _ _) as [ds ss]. cbn [fst snd].
  destruct (dictionary.display_results _ ds ss) as [t []].
  cbn. rewrite app_nil_r. reflexivity.
Qed.

Lemma console_missing (synsets : string -> list Synset) (raw : string) :
  synsets (normalize raw) = [] ->
  dictionary.get_definitions_and_synonyms synsets raw
  = ([WordNetQuery (normalize raw);
      Stdout (("Error: No definitions found for '" +:+ normalize raw +:+ "'")
              +:+ nl)],
     false).
Proof.
  intros Hs. unfold dictionary.get_definitions_and_synonyms. cbn [bind].
  rewrite Hs. cbn [print bind ret app]. reflexivity.
Qed.

(** ** What the traces hold *)

Lemma queries_app (t1 t2 : Trace) : queries (t1 ++ t2) = queries t1 ++ queries t2.
Proof.
  induction t1 as [|[] t1 IH]; cbn; [reflexivity | f_equal | |]; exact IH.
Qed.

Lemma only_stdout_queries (t : Trace) : only_stdout t -> queries t = [].
Proof.
  induction 1 as [|[] t He _ IH]; [reflexivity | discriminate | discriminate|].
  exact IH.
Qed.

Lemma only_stdout_requests (t : Trace) : only_stdout t -> requests t = [].
Proof.
  induction 1 as [|[] t He _ IH]; [reflexivity | discriminate | discriminate|].
  exact IH.
Qed.

Lemma print_only_stdout (text : string) : only_stdout (trace (print text)).
Proof. repeat constructor. Qed.

Lemma print_all_only_stdout (lines : list string) :
  only_stdout (trace (dictionary.print_all lines)).
Proof.
  induction lines as [|x l IH]; [constructor|].
  cbn [dictionary.print_all]. rewrite trace_bind.
  apply Forall_app_2; [apply print_only_stdout | exact IH].
Qed.

Lemma display_results_only_stdout (word : string) (definitions : list string)
    (synonyms : gset string) :
  only_stdout (trace (dictionary.display_results word definitions synonyms)).
Proof.
  unfold dictionary.display_results. rewrite !trace_bind.
  repeat apply Forall_app_2;
    try apply print_only_stdout; try apply print_all_only_stdout.
  case_decide; [apply print_only_stdout|].
  rewrite trace_bind.
  apply Forall_app_2; [apply print_only_stdout | apply print_all_only_stdout].
Qed.

(** The fallback does not query the database. *)
Lemma get_word_from_api_queries (WORDS_API_KEY : option string)
    (requests_get : string -> string -> HttpOutcome)
    (list_of_set : gset string -> list string) (word : string) :
  queries (trace (get_word_from_api WORDS_API_KEY requests_get list_of_set word))
  = [].
Proof.
  unfold get_word_from_api, http_get.
  destruct WORDS_API_KEY as [[|c k]|]; [reflexivity | | reflexivity].
  cbn [bind]. destruct (requests_get _ _) as [|st [b|]];
    repeat case_decide; reflexivity.
Qed.

(** ** The decorated functions *)

Section CachedCalls.

Variable synsets : string -> list Synset.
Variable WORDS_API_KEY : option string.
Variable requests_get : string -> string -> HttpOutcome.
Variable list_of_set : gset string -> list string.

Local Abbreviation fetch := (get_word_from_api WORDS_API_KEY requests_get list_of_set).
Local Abbreviation cached_fetch := (cached.get_word_from_api WORDS_API_KEY requests_get list_of_set).
Local Abbreviation cached_body := (cached.get_word_data_body synsets WORDS_API_KEY requests_get list_of_set).
Local Abbreviation cached_lookup := (cached.get_word_data synsets WORDS_API_KEY requests_get list_of_set).

(** A value stored at [now] is served until 3600 seconds have passed. *)
Lemma fresh_insert (cache : gmap string (Z * option WordRecord))
    (now now' : Z) (arg : string) (value : option WordRecord) :
  (now' < now + 3600)%Z ->
  cached.fresh (<[arg := (now, value)]> cache) now' arg = Some value.
Proof.
  intros H. unfold cached.fresh. rewrite lookup_insert_eq.
  unfold cached.ttl. rewrite decide_True by exact H. reflexivity.
Qed.

Lemma cached_fetch_hit (now : Z) (caches : cached.Caches) (word : string)
    (value : option WordRecord) :
  cached.fresh (cached.api_cache caches) now word = Some value ->
  cached_fetch now caches word = ([], (value, caches)).
Proof. intros H. unfold cached.get_word_from_api. rewrite H. reflexivity. Qed.

Lemma cached_fetch_miss (now : Z) (caches : cached.Caches) (word : string) :
  cached.fresh (cached.api_cache caches) now word = None ->
  cached_fetch now caches word
  = (trace (fetch word),
     (result (fetch word),
      cached.store_api now word (result (fetch word)) caches)).
Proof.
  intros H. unfold cached.get_word_from_api. rewrite H.
  destruct (get_word_from_api _ _ _ word) as [t v]. cbn.
  rewrite app_nil_r. reflexivity.
Qed.

Lemma cached_body_empty (now : Z) (caches : cached.Caches) (raw : string) :
  normalize raw = "" -> cached_body now caches raw = ([], (None, caches)).
Proof. intros H. unfold cached.get_word_data_body. rewrite H. reflexivity. Qed.

Lemma cached_body_local (now : Z) (caches : cached.Caches) (raw : string) :
  normalize raw ≠ "" -> synsets (normalize raw) ≠ [] ->
  cached_body now caches raw
  = ([WordNetQuery (normalize raw)],
     (Some (local_record list_of_set (normalize raw) (synsets (normalize raw))),
      caches)).
Proof.
  intros Hw Hs. unfold cached.get_word_data_body.
  destruct (normalize raw) as [|c w] eqn:E; [congruence|].
  unfold wordnet_synsets. cbn [bind].
  destruct (synsets (String c w)) as [|s l]; [congruence | reflexivity].
Qed.

Lemma cached_body_miss (now : Z) (caches : cached.Caches) (raw : string) :
  normalize raw ≠ "" -> synsets (normalize raw) = [] ->
  cached_body now caches raw
  = (WordNetQuery (normalize raw)
       :: trace (cached_fetch now caches (normalize raw)),
     result (cached_fetch now caches (normalize raw))).
Proof.
  intros Hw Hs. unfold cached.get_word_data_body.
  destruct (normalize raw) as [|c w] eqn:E; [congruence|].
  unfold wordnet_synsets. cbn [bind]. rewrite Hs.
  destruct (cached.get_word_from_api _ _ _ _ _ _); reflexivity.
Qed.

Lemma cached_lookup_hit (now : Z) (caches : cached.Caches) (raw : string)
    (value : option WordRecord) :
  cached.fresh (cached.data_cache caches) now raw = Some value ->
  cached_lookup now caches raw = ([], (value, caches)).
Proof. intros H. unfold cached.get_word_data. rewrite H. reflexivity. Qed.

Lemma cached_lookup_miss (now : Z) (caches : cached.Caches) (raw : string) :
  cached.fresh (cached.data_cache caches) now raw = None ->
  cached_lookup now caches raw
  = (trace (cached_body now caches raw),
     (fst (result (cached_body now caches raw)),
      cached.store_data now raw (fst (result (cached_body now caches raw)))
                        (snd (result (cached_body now caches raw))))).
Proof.
  intros H. unfold cached.get_word_data. rewrite H.
  destruct (cached.get_word_data_body _ _ _ _ _ _ raw) as [t [v c]]. cbn.
  rewrite app_nil_r. reflexivity.
Qed.

(** The queries of the body do not depend on the stores. *)
Lemma cached_body_queries (now : Z) (caches : cached.Caches) (raw : string) :
  queries (trace (cached_body now caches raw))
  = match normalize raw with EmptyString => [] | w => [w] end.
Proof.
  destruct (decide (normalize raw = "")) as [He|Hne].
  { rewrite (cached_body_empty _ _ _ He), He. reflexivity. }
  assert (queries (trace (cached_body now caches raw)) = [normalize raw]) as H.
  { destruct (decide (synsets (normalize raw) = [])) as [Hs|Hs].
    - rewrite (cached_body_miss _ _ _ Hne Hs). cbn [trace fst queries].
      f_equal.
      destruct (cached.fresh (cached.api_cache caches) now (normalize raw))
        as [v|] eqn:E.
      + rewrite (cached_fetch_hit _ _ _ _ E). reflexivity.
      + rewrite (cached_fetch_miss _ _ _ E). cbn [trace fst].
        apply get_word_from_api_queries.
    - rewrite (cached_body_local _ _ _ Hne Hs). reflexivity. }
  rewrite H. destruct (normalize raw); [congruence | reflexivity].
Qed.

(** After a call that ran the body, a call with the same argument less than
    3600 seconds later is served from the store, whatever the database
    and the endpoint are by then. *)
Lemma cached_lookup_again (now now' : Z) (caches : cached.Caches)
    (raw : string) (synsets' : string -> list Synset)
    (key' : option string) (requests_get' : string -> string -> HttpOutcome) :
  cached.fresh (cached.data_cache caches) now raw = None ->
  (now' < now + 3600)%Z ->
  cached.get_word_data synsets' key' requests_get' list_of_set now'
    (snd (result (cached_lookup now caches raw))) raw
  = ([], result (cached_lookup now caches raw)).
Proof.
  intros Hmiss Hnow. rewrite (cached_lookup_miss _ _ _ Hmiss).
  cbn [result snd fst].
  unfold cached.get_word_data, cached.store_data. cbn [cached.data_cache].
  rewrite (fresh_insert _ _ _ _ _ Hnow). reflexivity.
Qed.

End CachedCalls.

(** ** [format_output] *)

(** The text starts with the heading and the numbered definitions; the
    sections for synonyms, antonyms and examples follow. *)
Lemma format_output_start (data : WordRecord) :
  exists rest,
    format_output data
    = ((("**" +:+ str.title (word data) +:+ "**")
        +:+ nl +:+ nl +:+ "**📖 Definitions:**" +:+ nl)
       +:+ String.concat "" (definition_lines (definitions data)))
      +:+ rest.
Proof.
  unfold format_output.
  set (start := (("**" +:+ str.title (word data) +:+ "**")
                 +:+ nl +:+ nl +:+ "**📖 Definitions:**" +:+ nl)
                +:+ String.concat "" (definition_lines (definitions data))).
  assert (forall s t, (exists rest, s = start +:+ rest) ->
                      exists rest, s +:+ t = start +:+ rest) as Hmore.
  { intros s t [rest ->]. exists (rest +:+ t). apply string_append_assoc. }
  assert (exists rest, start = start +:+ rest) as H0
      by (exists ""; symmetry; apply string_append_empty_r).
  cbv zeta.
  assert (exists rest,
            (if decide (synonyms data = ∅) then start
             else start +:+ nl +:+ "**🔗 Synonyms:**" +:+ nl
                  +:+ str.join ", " (str.sorted (elements (synonyms data)))
                  +:+ nl)
            = start +:+ rest) as H1
      by (case_decide; [exact H0 | apply Hmore, H0]).
  set (out1 := if decide (synonyms data = ∅) then start
               else start +:+ nl +:+ "**🔗 Synonyms:**" +:+ nl
                    +:+ str.join ", " (str.sorted (elements (synonyms data)))
                    +:+ nl) in *.
  assert (exists rest,
            (if decide (antonyms data = ∅) then out1
             else out1 +:+ nl +:+ "**❌ Antonyms:**" +:+ nl
                  +:+ str.join ", " (str.sorted (elements (antonyms data)))
                  +:+ nl)
            = start +:+ rest) as H2
      by (case_decide; [exact H1 | apply Hmore, H1]).
  destruct (examples data); [exact H2 | apply Hmore, H2].
Qed.

(** ** The records of a lookup *)

Section Records.

Variable synsets : string -> list Synset.
Variable WORDS_API_KEY : option string.
Variable requests_get : string -> string -> HttpOutcome.
Variable list_of_set : gset string -> list string.

Local Abbreviation lookup := (get_word_data synsets WORDS_API_KEY requests_get list_of_set).
Local Abbreviation fetch := (get_word_from_api WORDS_API_KEY requests_get list_of_set).

(** C2, as the code has it.
    For every record the page builds from local entries, the synonyms
    never contain the normalized input word, and they are exactly the word
    forms, underscores replaced by spaces, of the lemmas of the word's
    entries, those forms equal to the word left out.  In the console the
    synonyms are exactly the word forms, underscores replaced by spaces,
    of the lemmas whose name, as the database has it, is not the word; so
    they never contain the normalized input word when that has no
    space. *)
Theorem synonyms_of_local_entries (raw : string) (data : WordRecord) :
  synsets (normalize raw) ≠ [] ->
  result (lookup raw) = Some data ->
  (normalize raw ∉ synonyms data)
  /\ (forall x,
        x ∈ synonyms data
        <-> exists synset lemma,
              synset ∈ synsets (normalize raw)
              /\ lemma ∈ wordnet.lemmas synset
              /\ x = str.replace_underscore (wordnet.name lemma)
              /\ x ≠ normalize raw)
  /\ (forall x,
        x ∈ snd (dictionary.collect (normalize raw) (synsets (normalize raw)))
        <-> exists synset lemma,
              synset ∈ synsets (normalize raw)
              /\ lemma ∈ wordnet.lemmas synset
              /\ x = str.replace_underscore (wordnet.name lemma)
              /\ wordnet.name lemma ≠ normalize raw)
  /\ (str.contains str.space (normalize raw) = false ->
      normalize raw
      ∉ snd (dictionary.collect (normalize raw) (synsets (normalize raw)))).
Proof.
  intros Hs H.
  apply get_word_data_Some in H as [_ [[_ ->] | [Hs' _]]]; [|congruence].
  split; [|split; [|split]].
  - rewrite local_record_synonyms. intros (? & ? & _ & _ & _ & Hne). congruence.
  - intros x. apply local_record_synonyms.
  - intros x. apply collect_synonyms.
  - intros Hsp Hin.
    apply collect_synonyms in Hin as (s & l & _ & _ & Hx & Hne).
    apply Hne. rewrite Hx in Hsp.
    apply replace_underscore_no_space in Hsp.
    rewrite (replace_underscore_id _ Hsp) in Hx. congruence.
Qed.

(** C7. Every record a lookup returns, from the local entries or from
    the fallback, has at most 3 examples, and its synonyms and antonyms are
    free of duplicates, as sets and as the sorted lists that are shown. *)
Theorem record_bounds (raw : string) (data : WordRecord) :
  result (lookup raw) = Some data ->
  length (examples data) <= 3
  /\ NoDup (elements (synonyms data))
  /\ NoDup (elements (antonyms data))
  /\ NoDup (str.sorted (elements (synonyms data)))
  /\ NoDup (str.sorted (elements (antonyms data))).
Proof.
  intros H. split.
  - apply get_word_data_Some in H as [_ [[_ ->] | [_ H]]].
    + apply local_record_examples.
    + apply get_word_from_api_Some in H as (k & b & _ & _ & _ & H).
      eapply api_record_examples. exact H.
  - unfold str.sorted. rewrite !merge_sort_Permutation.
    repeat split; apply NoDup_elements.
Qed.

(** C9. For every record of the fallback whose parts of speech are
    not the one-letter codes n, v, a, r, s (so also for the spelled-out
    names the API sends), the formatter labels every definition Unknown:
    the text [format_output] gives starts with the heading and then has,
    for every definition in order, its number, its text and the label
    Unknown. *)
Theorem remote_definitions_unknown (w : string) (data : WordRecord) :
  result (fetch w) = Some data ->
  (forall p, p ∈ pos_tags data -> p ∉ ["n"; "v"; "a"; "r"; "s"]) ->
  (forall defn, defn ∈ definitions data -> pos_to_name (pos defn) = "Unknown")
  /\ definition_lines (definitions data)
     = imap (fun i defn =>
               pretty (S i) +:+ ". " +:+ text defn +:+ " _Unknown_" +:+ nl)
            (definitions data)
  /\ exists rest,
       format_output data
       = ((("**" +:+ str.title (word data) +:+ "**")
           +:+ nl +:+ nl +:+ "**📖 Definitions:**" +:+ nl)
          +:+ String.concat ""
                (imap (fun i defn =>
                         pretty (S i) +:+ ". " +:+ text defn +:+ " _Unknown_"
                         +:+ nl)
                      (definitions data)))
         +:+ rest.
Proof.
  intros H Hp.
  apply get_word_from_api_Some in H as (k & b & _ & _ & _ & H).
  apply api_record_pos_listed in H.
  assert (forall defn, defn ∈ definitions data ->
                       pos_to_name (pos defn) = "Unknown") as Hu.
  { intros defn Hd. apply pos_to_name_unknown, Hp, H, Hd. }
  assert (definition_lines (definitions data)
          = imap (fun i defn =>
                    pretty (S i) +:+ ". " +:+ text defn +:+ " _Unknown_"
                    +:+ nl)
                 (definitions data)) as Hlines.
  { unfold definition_lines. apply imap_ext. intros i defn Hi.
    unfold definition_line. rewrite Hu; [reflexivity|].
    apply list_elem_of_lookup. exists i. exact Hi. }
  split; [exact Hu|]. split; [exact Hlines|].
  rewrite <- Hlines. apply format_output_start.
Qed.

(** C4, as the code has it.
    For every input whose normalized form is a non-empty word: the
    console queries the database once on every call, with the normalized
    word; the page's lookup is memoized per input for 3600 seconds: a call
    that is not served from the store queries the database once, with the
    same normalized word, a call that is served from the store queries
    nothing and returns the stored value, and so does a repeat of a call
    less than 3600 seconds after the body ran.  When the word has
    entries, both report success, the console's definitions are the texts
    of the page's definitions in the same order, the console's synonyms
    other than the word are synonyms of the page, the page's synonyms are
    synonyms of the console or the word with its underscores replaced,
    and the two sets are equal when the word has no underscore and no
    space.  When the word has no entries, the console reports the miss
    without a request to the API, and the body of the page's lookup
    returns what the body of the fallback returns. *)
Theorem frontends_compared (raw : string) :
  normalize raw ≠ "" ->
  let w := normalize raw in
  let console := dictionary.collect w (synsets w) in
  let page :=
    cached.get_word_data synsets WORDS_API_KEY requests_get list_of_set in
  (forall now caches,
      cached.fresh (cached.data_cache caches) now raw = None ->
      queries (trace (page now caches raw)) = [w])
  /\ (forall now caches value,
        cached.fresh (cached.data_cache caches) now raw = Some value ->
        page now caches raw = ([], (value, caches)))
  /\ (forall now now' caches,
        cached.fresh (cached.data_cache caches) now raw = None ->
        (now' < now + 3600)%Z ->
        page now' (snd (result (page now caches raw))) raw
        = ([], result (page now caches raw)))
  /\ queries (trace (lookup raw)) = [w]
  /\ queries (trace (dictionary.get_definitions_and_synonyms synsets raw)) = [w]
  /\ (synsets w ≠ [] ->
      exists data,
        result (lookup raw) = Some data
        /\ (forall now caches,
              cached.fresh (cached.data_cache caches) now raw = None ->
              fst (result (page now caches raw)) = Some data)
        /\ result (dictionary.get_definitions_and_synonyms synsets raw) = true
        /\ fst console = map text (definitions data)
        /\ snd console ∖ {[ w ]} ⊆ synonyms data
        /\ synonyms data ⊆ snd console ∪ {[ str.replace_underscore w ]}
        /\ (str.contains str.underscore w = false ->
            str.contains str.space w = false ->
            snd console = synonyms data))
  /\ (synsets w = [] ->
      result (dictionary.get_definitions_and_synonyms synsets raw) = false
      /\ requests (trace (dictionary.get_definitions_and_synonyms synsets raw))
         = []
      /\ result (lookup raw) = result (fetch w)).
Proof.
  intros Hw w console page. subst w console page.
  split; [|split; [|split]].
  { intros now caches Hmiss.
    rewrite (cached_lookup_miss _ _ _ _ _ _ _ Hmiss). cbn [trace fst].
    rewrite cached_body_queries.
    destruct (normalize raw); [congruence | reflexivity]. }
  { intros now caches value Hhit. apply cached_lookup_hit, Hhit. }
  { intros now now' caches Hmiss Hnow.
    apply cached_lookup_again; assumption. }
  split; [|split; [|split]].
  - destruct (decide (synsets (normalize raw) = [])) as [Hs|Hs].
    + rewrite (get_word_data_miss _ _ _ _ _ Hw Hs). cbn [trace fst queries].
      rewrite get_word_from_api_queries. reflexivity.
    + rewrite (get_word_data_local _ _ _ _ _ Hw Hs). reflexivity.
  - destruct (decide (synsets (normalize raw) = [])) as [Hs|Hs].
    + rewrite (console_missing _ _ Hs). reflexivity.
    + rewrite (console_found _ _ Hs). cbn [trace fst queries].
      rewrite only_stdout_queries; [reflexivity|].
      apply display_results_only_stdout.
  - intros Hs.
    rewrite (get_word_data_local _ _ _ _ _ Hw Hs), (console_found _ _ Hs).
    eexists. split; [reflexivity|]. split.
    { intros now caches Hmiss.
      rewrite (cached_lookup_miss _ _ _ _ _ _ _ Hmiss). cbn [result snd fst].
      rewrite (cached_body_local _ _ _ _ _ _ _ Hw Hs). reflexivity. }
    split; [reflexivity|].
    rewrite local_record_definitions, collect_definitions, map_map.
    split; [reflexivity|]. split; [|split].
    + intros x Hx. apply elem_of_difference in Hx as [Hx Hne].
      apply collect_synonyms in Hx as (s & l & Hs' & Hl & -> & _).
      apply local_record_synonyms. exists s, l.
      repeat split; try assumption. set_solver.
    + intros x Hx.
      apply local_record_synonyms in Hx as (s & l & Hs' & Hl & -> & Hne).
      destruct (decide (wordnet.name l = normalize raw)) as [He|Hn].
      * rewrite He. set_solver.
      * apply elem_of_union; left. apply collect_synonyms.
        exists s, l. repeat split; assumption.
    + intros Hu Hsp. apply set_eq. intros x.
      rewrite collect_synonyms, local_record_synonyms.
      split; intros (s & l & Hs' & Hl & -> & Hne); exists s, l;
        repeat split; try assumption;
        rewrite (replace_underscore_eq_word _ _ Hu Hsp) in *; assumption.
  - intros Hs.
    rewrite (console_missing _ _ Hs), (get_word_data_miss _ _ _ _ _ Hw Hs).
    repeat split.
Qed.

End Records.

(** ** The search history *)

Lemma history_add_to_history (word : string) (st : SessionState) :
  history (add_to_history word st)
  = if decide (word ∈ history st) then history st
    else word :: take 4 (history st).
Proof. unfold add_to_history. case_decide; reflexivity. Qed.

Lemma add_to_history_present (word : string) (st : SessionState) :
  word ∈ history st -> add_to_history word st = st.
Proof. intros H. unfold add_to_history. rewrite decide_True by exact H. reflexivity. Qed.

(** Bounded and duplicate-free: kept by every call. *)
Lemma add_to_history_inv (word : string) (st : SessionState) :
  length (history st) <= 5 /\ NoDup (history st) ->
  length (history (add_to_history word st)) <= 5
  /\ NoDup (history (add_to_history word st)).
Proof.
  intros [Hlen Hnd]. rewrite history_add_to_history.
  case_decide as Hin; [split; assumption|]. split.
  - cbn. rewrite length_take. lia.
  - apply NoDup_cons. split.
    + intros Hw. apply Hin. eapply subseteq_take, Hw.
    + exact (sublist_NoDup _ _ Hnd (sublist_take _ _)).
Qed.

Lemma record_all_inv (words : list string) :
  length (history (record_all words session_init)) <= 5
  /\ NoDup (history (record_all words session_init)).
Proof.
  unfold record_all.
  apply (fold_left_inv (fun st word => add_to_history word st)
           (fun st => length (history st) <= 5 /\ NoDup (history st))).
  - cbn. split; [lia | constructor].
  - intros st word H _. apply add_to_history_inv, H.
Qed.

(** C6, as the code has it.
    After every sequence of calls the history has at
    most 5 entries and no duplicates.  Recording a word that is present
    changes nothing: the word keeps its place and is not moved to the
    front.  Recording a word that is absent puts it at the front, before
    the first four of the entries there were; recording it once more
    changes nothing; and when there were 5 entries the oldest one is
    gone. *)
Theorem history_bounded_distinct (words : list string) :
  let st := record_all words session_init in
  length (history st) <= 5
  /\ NoDup (history st)
  /\ (forall word, word ∈ history st -> add_to_history word st = st)
  /\ (forall word, word ∉ history st ->
        history (add_to_history word st) = word :: take 4 (history st)
        /\ add_to_history word (add_to_history word st) = add_to_history word st)
  /\ (forall word oldest,
        word ∉ history st -> length (history st) = 5 ->
        last (history st) = Some oldest ->
        (oldest ∉ history (add_to_history word st))
        /\ length (history (add_to_history word st)) = 5).
Proof.
  intros st. destruct (record_all_inv words) as [Hlen Hnd]. fold st in Hlen, Hnd.
  split; [exact Hlen|]. split; [exact Hnd|]. split; [|split].
  - intros word. apply add_to_history_present.
  - intros word Hin. split.
    + rewrite history_add_to_history, decide_False by exact Hin. reflexivity.
    + apply add_to_history_present.
      rewrite history_add_to_history, decide_False by exact Hin. left.
  - intros word oldest Hin H5 Hlast.
    rewrite history_add_to_history, decide_False by exact Hin.
    apply last_Some in Hlast as [l' Hl'].
    assert (length l' = 4) as Hl4.
    { rewrite Hl', length_app in H5. cbn in H5. lia. }
    assert (take 4 (history st) = l') as Ht.
    { rewrite Hl', <- Hl4. apply take_app_length. }
    rewrite Ht. split; [|cbn; lia].
    rewrite Hl' in Hnd, Hin. apply NoDup_app in Hnd as (_ & Hdisj & _).
    intros Ho. apply elem_of_cons in Ho as [-> | Ho].
    + apply Hin. apply elem_of_app. right. left.
    + apply (Hdisj _ Ho). left.
Qed.

Lemma history_enter (typed : string) (st : SessionState) :
  str.strip typed ≠ "" ->
  history (enter typed st) = history (add_to_history (str.strip typed) st)
  /\ current_word (enter typed st) = Some (str.strip typed).
Proof.
  intros H. unfold enter, handle_search_input. cbn [search_input].
  destruct (str.strip typed) as [|c w] eqn:E; [congruence|].
  unfold add_to_history. cbn [history current_word].
  case_decide; split; reflexivity.
Qed.

(** C10. The history is keyed by the text as typed, stripped of
    surrounding whitespace, not by the word that is looked up: two inputs
    that differ after stripping give two entries, the later one first,
    also when they differ in case only and the lookup treats them as the
    same word. *)
Theorem history_case_sensitive (typed1 typed2 : string) (st : SessionState) :
  let w1 := str.strip typed1 in
  let w2 := str.strip typed2 in
  w1 ≠ "" -> w2 ≠ "" -> w1 ≠ w2 ->
  w1 ∉ history st -> w2 ∉ history st ->
  history (enter typed2 (enter typed1 st)) = take 5 (w2 :: w1 :: history st)
  /\ (normalize w1 = normalize w2 ->
      forall synsets key requests_get list_of_set,
        get_word_data synsets key requests_get list_of_set w1
        = get_word_data synsets key requests_get list_of_set w2).
Proof.
  intros w1 w2 H1 H2 Hne Hin1 Hin2. split.
  - destruct (history_enter typed2 (enter typed1 st) H2) as [-> _].
    rewrite history_add_to_history.
    destruct (history_enter typed1 st H1) as [-> _].
    rewrite history_add_to_history. fold w1 w2.
    rewrite (decide_False (P := w1 ∈ history st)) by exact Hin1.
    rewrite decide_False.
    + cbn. destruct (history st) as [|a [|b [|c [|d l]]]]; reflexivity.
    + intros H. apply elem_of_cons in H as [H | H]; [congruence|].
      apply Hin2. eapply subseteq_take, H.
  - intros Hn synsets key requests_get list_of_set.
    unfold get_word_data. rewrite Hn. reflexivity.
Qed.

(** Whatever the user does, the history of the session stays bounded and
    duplicate-free. *)
Lemma page_run_inv (events : list PageEvent) :
  length (history (page_run events)) <= 5
  /\ NoDup (history (page_run events)).
Proof.
  unfold page_run.
  apply (fold_left_inv page_step
           (fun st => length (history st) <= 5 /\ NoDup (history st))).
  - cbn. split; [lia | constructor].
  - intros st [text| | |i| |i] H _; cbn [page_step];
      [| | | |exact H|unfold suggestion_button;
                      destruct (suggestions !! i); exact H].
    + unfold enter, handle_search_input. cbn [search_input].
      destruct (str.strip text); [exact H|]. apply add_to_history_inv, H.
    + unfold search_button.
      destruct (str.strip (search_input st)); [exact H|].
      apply add_to_history_inv, H.
    + cbn. split; [lia | constructor].
    + unfold history_button. destruct (history st !! i); exact H.
Qed.

(** The page never looks up a blank word. *)
Lemma display_not_blank (synsets : string -> list Synset)
    (WORDS_API_KEY : option string)
    (requests_get : string -> string -> HttpOutcome)
    (list_of_set : gset string -> list string) (st : SessionState)
    (m : IO (option WordRecord)) :
  display synsets WORDS_API_KEY requests_get list_of_set st = Some m ->
  exists word_input,
    word_input ≠ ""
    /\ m = get_word_data synsets WORDS_API_KEY requests_get list_of_set
                         word_input.
Proof.
  unfold display. destruct (current_word st) as [[|c w]|]; try discriminate.
  destruct (str.strip (String c w)) as [|c' w'] eqn:E; [discriminate|].
  intros [= <-]. exists (String c' w'). split; [discriminate | reflexivity].
Qed.

(** ** What the console writes *)

Lemma print_all_lines (lines : list string) :
  trace (dictionary.print_all lines)
  = map (fun line => Stdout (line +:+ nl)) lines.
Proof.
  induction lines as [|x l IH]; [reflexivity|].
  cbn [dictionary.print_all map]. rewrite trace_bind, IH. reflexivity.
Qed.

(** The lines of [# Display results], one [print] each. *)
Lemma display_results_lines (word : string) (definitions : list string)
    (synonyms : gset string) :
  trace (dictionary.display_results word definitions synonyms)
  = [Stdout ((nl +:+ dictionary.rule) +:+ nl);
     Stdout (("Word: " +:+ str.capitalize word) +:+ nl);
     Stdout (dictionary.rule +:+ nl);
     Stdout ((nl +:+ "Definitions (" +:+ pretty (length definitions) +:+ "):")
             +:+ nl)]
    ++ map (fun line => Stdout (line +:+ nl))
           (imap (fun i defn => "  " +:+ pretty (S i) +:+ ". " +:+ defn)
                 definitions)
    ++ (if decide (synonyms = ∅)
        then [Stdout ((nl +:+ "No synonyms found.") +:+ nl)]
        else Stdout ((nl +:+ "Synonyms:") +:+ nl)
               :: map (fun syn => Stdout (("  - " +:+ syn) +:+ nl))
                      (str.sorted (elements synonyms)))
    ++ [Stdout ("" +:+ nl)].
Proof.
  unfold dictionary.display_results.
  rewrite !trace_bind, print_all_lines. cbn [trace print fst app].
  do 5 f_equal. case_decide; [reflexivity|].
  rewrite trace_bind, print_all_lines, map_map. reflexivity.
Qed.

(** ** The console loop *)

Section ConsoleMain.

Variable synsets : string -> list Synset.

Local Abbreviation loop := (dictionary.loop synsets).
Local Abbreviation look_up := (dictionary.get_definitions_and_synonyms synsets).

(** Every pass starts with the prompt. *)
Lemma loop_prompts (script : list dictionary.Stdin) :
  head (trace (loop script)) = Some (Stdout "Enter a word: ").
Proof.
  destruct script as [|item script]; [reflexivity|].
  cbn [dictionary.loop]. rewrite trace_bind. reflexivity.
Qed.

Lemma loop_quit (s : string) (script : list dictionary.Stdin) :
  str.lower (str.strip s) ∈ ["quit"; "exit"; "q"] ->
  loop (dictionary.Line s :: script)
  = ([Stdout "Enter a word: "; Stdout ("Goodbye!" +:+ nl)], dictionary.SysExit 0).
Proof.
  intros H. cbn [dictionary.loop]. rewrite decide_True by exact H. reflexivity.
Qed.

Lemma loop_empty (s : string) (script : list dictionary.Stdin) :
  str.strip s = "" ->
  loop (dictionary.Line s :: script)
  = ([Stdout "Enter a word: "; Stdout (("Please enter a word." +:+ nl) +:+ nl)]
       ++ trace (loop script),
     result (loop script)).
Proof.
  intros H. cbn [dictionary.loop]. rewrite H.
  rewrite decide_False by (vm_compute; intros Hin; inversion Hin as [|? ? ? Hin2];
    inversion Hin2 as [|? ? ? Hin3]; inversion Hin3 as [|? ? ? Hin4];
    inversion Hin4).
  destruct (dictionary.loop synsets script) as [t o]. reflexivity.
Qed.

Lemma loop_word (s : string) (script : list dictionary.Stdin) :
  str.lower (str.strip s) ∉ ["quit"; "exit"; "q"] -> str.strip s ≠ "" ->
  loop (dictionary.Line s :: script)
  = (Stdout "Enter a word: " :: trace (look_up (str.strip s))
       ++ trace (loop script),
     result (loop script)).
Proof.
  intros Hq He. cbn [dictionary.loop]. rewrite decide_False by exact Hq.
  destruct (str.strip s) as [|c w]; [congruence|].
  destruct (dictionary.get_definitions_and_synonyms synsets (String c w)) as [t b].
  destruct (dictionary.loop synsets script) as [t' o]. reflexivity.
Qed.

Lemma loop_interrupt (script : list dictionary.Stdin) :
  loop (dictionary.Interrupt :: script)
  = ([Stdout "Enter a word: "; Stdout ((nl +:+ nl +:+ "Goodbye!") +:+ nl)],
     dictionary.SysExit 0).
Proof. reflexivity. Qed.

(** The only exit code is 0. *)
Lemma loop_exit_code (script : list dictionary.Stdin) (code : Z) :
  result (loop script) = dictionary.SysExit code -> code = 0%Z.
Proof.
  induction script as [|[s| |] script IH].
  - discriminate.
  - destruct (decide (str.lower (str.strip s) ∈ ["quit"; "exit"; "q"])) as [Hq|Hq].
    + rewrite (loop_quit _ _ Hq). intros [= <-]. reflexivity.
    + destruct (decide (str.strip s = "")) as [He|He].
      * rewrite (loop_empty _ _ He). exact IH.
      * rewrite (loop_word _ _ Hq He). exact IH.
  - intros [= <-]. reflexivity.
  - cbn [dictionary.loop]. rewrite !result_bind. exact IH.
Qed.

(** A lookup asks the database once and writes at least one line. *)
Lemma look_up_trace (word : string) :
  exists out,
    trace (look_up word) = WordNetQuery (normalize word) :: out
    /\ only_stdout out /\ out ≠ [].
Proof.
  destruct (decide (synsets (normalize word) = [])) as [Hs|Hs].
  - rewrite (console_missing _ _ Hs). eexists. split; [reflexivity|].
    split; [repeat constructor | discriminate].
  - rewrite (console_found _ _ Hs). eexists. split; [reflexivity|].
    split; [apply display_results_only_stdout|].
    unfold dictionary.display_results. rewrite trace_bind. discriminate.
Qed.

(** What a lookup of the console leaves in the trace: the query, and then
    the error line, or the heading, the numbered definitions of the
    entries and the synonyms. *)
Lemma look_up_lines (word : string) :
  (synsets (normalize word) = [] ->
   trace (look_up word)
   = [WordNetQuery (normalize word);
      Stdout (("Error: No definitions found for '" +:+ normalize word +:+ "'")
              +:+ nl)])
  /\ (synsets (normalize word) ≠ [] ->
      exists synonyms : gset string,
        (forall x,
            x ∈ synonyms
            <-> exists synset lemma,
                  synset ∈ synsets (normalize word)
                  /\ lemma ∈ wordnet.lemmas synset
                  /\ x = str.replace_underscore (wordnet.name lemma)
                  /\ wordnet.name lemma ≠ normalize word)
        /\ trace (look_up word)
           = WordNetQuery (normalize word)
               :: [Stdout ((nl +:+ dictionary.rule) +:+ nl);
                   Stdout (("Word: " +:+ str.capitalize (normalize word))
                           +:+ nl);
                   Stdout (dictionary.rule +:+ nl);
                   Stdout ((nl +:+ "Definitions ("
                            +:+ pretty (length (synsets (normalize word)))
                            +:+ "):") +:+ nl)]
               ++ map (fun line => Stdout (line +:+ nl))
                      (imap (fun i defn =>
                               "  " +:+ pretty (S i) +:+ ". " +:+ defn)
                            (map wordnet.definition
                                 (synsets (normalize word))))
               ++ (if decide (synonyms = ∅)
                   then [Stdout ((nl +:+ "No synonyms found.") +:+ nl)]
                   else Stdout ((nl +:+ "Synonyms:") +:+ nl)
                          :: map (fun syn => Stdout (("  - " +:+ syn) +:+ nl))
                                 (str.sorted (elements synonyms)))
               ++ [Stdout ("" +:+ nl)]).
Proof.
  split; intros Hs.
  - rewrite (console_missing _ _ Hs). reflexivity.
  - exists (snd (dictionary.collect (normalize word)
                                    (synsets (normalize word)))).
    split; [intros x; apply collect_synonyms|].
    rewrite (console_found _ _ Hs). cbn [trace fst].
    rewrite display_results_lines, collect_definitions, length_map.
    reflexivity.
Qed.

(** C8. In the console, a line that is quit, exit or q in any mix of
    upper and lower case ends the loop with exit code 0; a line that is
    empty once stripped is answered with a request for a word and the next
    prompt, without a query; any other line is looked up and its results
    are printed: the database is asked once, and what is written is the
    error line when the word has no entries, and otherwise the heading
    with the word, the number of its entries, the definition of every
    entry, numbered in the order of the database, and the synonyms in
    ascending order (the word forms of the lemmas whose name is not the
    word), or the line that there are none; then the loop goes on.  A
    keyboard interrupt ends the loop with exit code 0 after the
    farewell.  No other exit code occurs. *)
Theorem console_loop :
  (forall s script,
      str.lower (str.strip s) ∈ ["quit"; "exit"; "q"] ->
      loop (dictionary.Line s :: script)
      = ([Stdout "Enter a word: "; Stdout ("Goodbye!" +:+ nl)],
         dictionary.SysExit 0))
  /\ (forall s script,
        str.strip s = "" ->
        loop (dictionary.Line s :: script)
        = ([Stdout "Enter a word: ";
            Stdout (("Please enter a word." +:+ nl) +:+ nl)]
             ++ trace (loop script),
           result (loop script))
        /\ head (trace (loop script)) = Some (Stdout "Enter a word: "))
  /\ (forall s script,
        str.lower (str.strip s) ∉ ["quit"; "exit"; "q"] -> str.strip s ≠ "" ->
        loop (dictionary.Line s :: script)
        = (Stdout "Enter a word: " :: trace (look_up (str.strip s))
             ++ trace (loop script),
           result (loop script))
        /\ (exists out,
               trace (look_up (str.strip s))
               = WordNetQuery (normalize (str.strip s)) :: out
               /\ only_stdout out /\ out ≠ [])
        /\ (synsets (normalize (str.strip s)) = [] ->
            trace (look_up (str.strip s))
            = [WordNetQuery (normalize (str.strip s));
               Stdout (("Error: No definitions found for '"
                        +:+ normalize (str.strip s) +:+ "'") +:+ nl)])
        /\ (synsets (normalize (str.strip s)) ≠ [] ->
            exists synonyms : gset string,
              (forall x,
                  x ∈ synonyms
                  <-> exists synset lemma,
                        synset ∈ synsets (normalize (str.strip s))
                        /\ lemma ∈ wordnet.lemmas synset
                        /\ x = str.replace_underscore (wordnet.name lemma)
                        /\ wordnet.name lemma ≠ normalize (str.strip s))
              /\ trace (look_up (str.strip s))
                 = WordNetQuery (normalize (str.strip s))
                     :: [Stdout ((nl +:+ dictionary.rule) +:+ nl);
                         Stdout (("Word: "
                                  +:+ str.capitalize (normalize (str.strip s)))
                                 +:+ nl);
                         Stdout (dictionary.rule +:+ nl);
                         Stdout ((nl +:+ "Definitions ("
                                  +:+ pretty
                                        (length
                                           (synsets (normalize (str.strip s))))
                                  +:+ "):") +:+ nl)]
                     ++ map (fun line => Stdout (line +:+ nl))
                            (imap (fun i defn =>
                                     "  " +:+ pretty (S i) +:+ ". " +:+ defn)
                                  (map wordnet.definition
                                       (synsets (normalize (str.strip s)))))
                     ++ (if decide (synonyms = ∅)
                         then [Stdout ((nl +:+ "No synonyms found.") +:+ nl)]
                         else Stdout ((nl +:+ "Synonyms:") +:+ nl)
                                :: map (fun syn =>
                                          Stdout (("  - " +:+ syn) +:+ nl))
                                       (str.sorted (elements synonyms)))
                     ++ [Stdout ("" +:+ nl)]))
  /\ (forall script,
        loop (dictionary.Interrupt :: script)
        = ([Stdout "Enter a word: ";
            Stdout ((nl +:+ nl +:+ "Goodbye!") +:+ nl)],
           dictionary.SysExit 0))
  /\ (forall script code,
        result (dictionary.main synsets script) = dictionary.SysExit code ->
        code = 0%Z).
Proof.
  split; [exact loop_quit|]. split; [|split; [|split]].
  - intros s script H. split; [apply loop_empty, H | apply loop_prompts].
  - intros s script Hq He. split; [apply loop_word; assumption|].
    split; [apply look_up_trace|]. apply look_up_lines.
  - exact loop_interrupt.
  - intros script code. unfold dictionary.main. rewrite result_bind.
    apply loop_exit_code.
Qed.

End ConsoleMain.

(** ** The statements on the sample data *)

(** C1 at the input ["  Happy "]. *)
Lemma lookup_local_entries_witness :
  normalize "  Happy " ≠ ""
  /\ sample.db (normalize "  Happy ") ≠ []
  /\ exists data,
       result (get_word_data sample.db None sample.no_network elements
                             "  Happy ") = Some data
       /\ source_of data = local
       /\ definitions data ≠ []
       /\ definitions data = map sense_of (sample.db (normalize "  Happy ")).
Proof.
  split; [vm_compute; discriminate|]. split; [vm_compute; discriminate|].
  apply (lookup_local_entries sample.db None sample.no_network elements
           "  Happy "); vm_compute; discriminate.
Defined.

(** C2: a record of the fallback holds the synonyms the API sent, here
    with the word itself among them. *)
Lemma synonyms_contain_word_counterexample :
  exists data,
    result (get_word_data sample.no_entries (Some "key") sample.endpoint
                          elements "Happy") = Some data
    /\ normalize "Happy" ∈ synonyms data.
Proof.
  eexists. split; [reflexivity|]. by_evaluation.
Qed.

(** C2 at the input ["Happy"]. *)
Lemma synonyms_of_local_entries_witness :
  sample.db (normalize "Happy") ≠ []
  /\ result (get_word_data sample.db None sample.no_network elements "Happy")
     = Some (local_record elements "happy" [sample.happy])
  /\ "happy" ∉ synonyms (local_record elements "happy" [sample.happy]).
Proof.
  assert (sample.db (normalize "Happy") ≠ []) as H1
      by (vm_compute; discriminate).
  assert (result (get_word_data sample.db None sample.no_network elements
                                "Happy")
          = Some (local_record elements "happy" [sample.happy])) as H2
      by reflexivity.
  split; [exact H1|]. split; [exact H2|].
  exact (proj1 (synonyms_of_local_entries sample.db None sample.no_network
                  elements "Happy" _ H1 H2)).
Defined.

(** C3: blank input and a word that is nowhere to be found give the same
    result. *)
Lemma invalid_input_not_distinct_counterexample :
  normalize "   " = ""
  /\ normalize "zzzqqqnonword" ≠ ""
  /\ result (get_word_data sample.no_entries None sample.no_network elements
                           "   ")
     = result (get_word_data sample.no_entries None sample.no_network elements
                             "zzzqqqnonword").
Proof. split; [reflexivity|]. split; [discriminate | reflexivity]. Qed.

(** C3 at a blank input. *)
Lemma lookup_empty_input_witness :
  normalize "   " = ""
  /\ result (get_word_data sample.db (Some "key") sample.endpoint elements
                           "   ") = None
  /\ trace (get_word_data sample.db (Some "key") sample.endpoint elements
                          "   ") = [].
Proof.
  split; [reflexivity|].
  destruct (lookup_empty_input sample.db (Some "key") sample.endpoint elements
              "   " eq_refl) as (H1 & H2 & _).
  split; [exact H1 | exact H2].
Defined.

(** C4: with a credential, a word without entries is found by the page
    and not by the console; for a word with an underscore the page lists
    the word's own form with a space as a synonym and the console does
    not; and the two headings differ. *)
Lemma frontends_differ_counterexample :
  (exists data,
      result (get_word_data sample.no_entries (Some "key") sample.endpoint
                            elements "happy") = Some data
      /\ result (dictionary.get_definitions_and_synonyms sample.no_entries
                                                          "happy") = false)
  /\ (exists data,
        result (get_word_data sample.db None sample.no_network elements
                              "ice_cream") = Some data
        /\ "ice cream" ∈ synonyms data
        /\ "ice cream"
           ∉ snd (dictionary.collect (normalize "ice_cream")
                                     (sample.db (normalize "ice_cream"))))
  /\ str.title "ice cream" ≠ str.capitalize "ice cream".
Proof.
  split; [|split].
  - eexists. split; reflexivity.
  - eexists. split; [reflexivity|]. split; by_evaluation.
  - vm_compute. discriminate.
Qed.

(** C4 at the input ["Happy"]: the first call of the page and a repeat
    100 seconds later. *)
Lemma frontends_compared_witness :
  normalize "Happy" ≠ ""
  /\ queries (trace (cached.get_word_data sample.db None sample.no_network
                                          elements 0 cached.no_caches "Happy"))
     = ["happy"]
  /\ trace (cached.get_word_data sample.db None sample.no_network elements 100
             (snd (result (cached.get_word_data sample.db None
                             sample.no_network elements 0 cached.no_caches
                             "Happy")))
             "Happy")
     = []
  /\ queries (trace (dictionary.get_definitions_and_synonyms sample.db "Happy"))
     = ["happy"].
Proof.
  assert (normalize "Happy" ≠ "") as H by (vm_compute; discriminate).
  split; [exact H|].
  destruct (frontends_compared sample.db None sample.no_network elements
              "Happy" H) as (H1 & _ & H3 & _ & H5 & _).
  split; [apply H1; reflexivity|].
  split; [|exact H5].
  rewrite (H3 0%Z 100%Z cached.no_caches); [reflexivity | reflexivity | lia].
Defined.

(** C5 at a word without entries. *)
Lemma lookup_no_entry_no_credential_witness :
  no_credential None
  /\ sample.no_entries (normalize "zzzqqqnonword") = []
  /\ result (get_word_data sample.no_entries None sample.endpoint elements
                           "zzzqqqnonword") = None.
Proof.
  assert (no_credential None) as H1 by (left; reflexivity).
  split; [exact H1|]. split; [reflexivity|].
  exact (proj1 (lookup_no_entry_no_credential sample.no_entries None
                  sample.endpoint elements "zzzqqqnonword" H1 eq_refl)).
Defined.

(** C6: after [a], [b], [a] the entry recorded last is not at the
    front. *)
Lemma history_not_moved_to_front_counterexample :
  "a" ∈ history (record_all ["a"; "b"] session_init)
  /\ history (record_all ["a"; "b"; "a"] session_init) = ["b"; "a"]
  /\ head (history (record_all ["a"; "b"; "a"] session_init)) ≠ Some "a".
Proof.
  split; [by_evaluation|]. split; [reflexivity|]. vm_compute. discriminate.
Qed.

(** C7 at the input ["Happy"], whose entry has four examples. *)
Lemma record_bounds_witness :
  result (get_word_data sample.db None sample.no_network elements "Happy")
  = Some (local_record elements "happy" [sample.happy])
  /\ length (wordnet.examples sample.happy) = 4
  /\ length (examples (local_record elements "happy" [sample.happy])) <= 3.
Proof.
  assert (result (get_word_data sample.db None sample.no_network elements
                                "Happy")
          = Some (local_record elements "happy" [sample.happy])) as H
      by reflexivity.
  split; [exact H|]. split; [reflexivity|].
  exact (proj1 (record_bounds sample.db None sample.no_network elements
                  "Happy" _ H)).
Defined.

(** C9 at the sample endpoint, whose part of speech is [adjective]. *)
Lemma remote_definitions_unknown_witness :
  exists data,
    result (get_word_from_api (Some "key") sample.endpoint elements "happy")
    = Some data
    /\ pos_tags data = ["adjective"]
    /\ (forall defn, defn ∈ definitions data ->
                     pos_to_name (pos defn) = "Unknown")
    /\ exists rest,
         format_output data
         = "**Happy**" +:+ nl +:+ nl +:+ "**📖 Definitions:**" +:+ nl
           +:+ "1. feeling pleasure _Unknown_" +:+ nl +:+ rest.
Proof.
  eexists. split; [reflexivity|]. split; [reflexivity|].
  destruct (remote_definitions_unknown (Some "key") sample.endpoint elements
              "happy" _ eq_refl) as (H1 & _ & rest & H3).
  { intros p Hp. apply list_elem_of_singleton in Hp as ->. by_evaluation. }
  split; [exact H1|]. exists rest. rewrite H3. vm_compute. reflexivity.
Defined.

(** C10 at the inputs [Cat] and [cat]. *)
Lemma history_case_sensitive_witness :
  str.strip "Cat" ≠ str.strip "cat"
  /\ normalize "Cat" = normalize "cat"
  /\ history (enter "cat" (enter "Cat" session_init)) = ["cat"; "Cat"].
Proof.
  assert (str.strip "Cat" ≠ str.strip "cat") as Hne
      by (vm_compute; discriminate).
  split; [exact Hne|]. split; [reflexivity|].
  refine (proj1 (history_case_sensitive "Cat" "cat" session_init _ _ Hne _ _)).
  - vm_compute; discriminate.
  - vm_compute; discriminate.
  - by_evaluation.
  - by_evaluation.
Defined.

(** A console session: a blank line, a word, and quit in mixed case. *)
Example console_session :
  result (dictionary.main sample.db
            [dictionary.Line ""; dictionary.Line " Happy";
             dictionary.Line " QuIt "; dictionary.Line "glad"])
  = dictionary.SysExit 0
  /\ queries (trace (dictionary.main sample.db
                       [dictionary.Line ""; dictionary.Line " Happy";
                        dictionary.Line " QuIt "; dictionary.Line "glad"]))
     = ["happy"].
Proof. split; vm_compute; reflexivity. Qed.

(** The numbered lines of the download for the sample word. *)
Example definition_lines_happy :
  definition_lines (definitions (local_record elements "happy" [sample.happy]))
  = ["1. enjoying or showing joy _Adjective_" +:+ nl].
Proof. vm_compute. reflexivity. Qed.

(** What the terminal shows when the first input is interrupted. *)
Example console_interrupted :
  stdout (trace (dictionary.loop sample.db [dictionary.Interrupt]))
  = "Enter a word: " +:+ nl +:+ nl +:+ "Goodbye!" +:+ nl.
Proof. reflexivity. Qed.

(** * Further properties *)

(** ** Normalisation *)

Lemma isspace_lower_char (c : ascii) :
  str.isspace (str.lower_char c) = str.isspace c.
Proof. destruct c as [[] [] [] [] [] [] [] []]; reflexivity. Qed.

Lemma lower_char_idem (c : ascii) :
  str.lower_char (str.lower_char c) = str.lower_char c.
Proof. destruct c as [[] [] [] [] [] [] [] []]; reflexivity. Qed.

Lemma lower_idem (s : string) : str.lower (str.lower s) = str.lower s.
Proof.
  induction s as [|c s IH]; [reflexivity|].
  cbn [str.lower]. rewrite lower_char_idem, IH. reflexivity.
Qed.

Lemma lower_lstrip (s : string) :
  str.lower (str.lstrip s) = str.lstrip (str.lower s).
Proof.
  induction s as [|c s IH]; [reflexivity|].
  cbn [str.lower str.lstrip]. rewrite isspace_lower_char.
  destruct (str.isspace c); [exact IH | reflexivity].
Qed.

Lemma lower_rstrip (s : string) :
  str.lower (str.rstrip s) = str.rstrip (str.lower s).
Proof.
  induction s as [|c s IH]; [reflexivity|].
  cbn [str.lower str.rstrip]. rewrite <- IH, isspace_lower_char.
  destruct (str.rstrip s); cbn [str.lower]; [|reflexivity].
  destruct (str.isspace c); reflexivity.
Qed.

(** Lowercasing and stripping commute. *)
Lemma lower_strip (s : string) :
  str.lower (str.strip s) = str.strip (str.lower s).
Proof. unfold str.strip. rewrite lower_rstrip, lower_lstrip. reflexivity. Qed.

Lemma rstrip_idem (s : string) : str.rstrip (str.rstrip s) = str.rstrip s.
Proof.
  induction s as [|c s IH]; [reflexivity|].
  cbn [str.rstrip]. destruct (str.rstrip s) as [|c' r] eqn:E.
  - destruct (str.isspace c) eqn:Ec; [reflexivity|].
    cbn [str.rstrip]. rewrite Ec. reflexivity.
  - cbn [str.rstrip]. cbn [str.rstrip] in IH. rewrite IH. reflexivity.
Qed.

(** What is left of [lstrip] starts with a character that is no space. *)
Lemma lstrip_head (s : string) :
  match str.lstrip s with
  | EmptyString => True
  | String c _ => str.isspace c = false
  end.
Proof.
  induction s as [|c s IH]; [exact I|].
  cbn [str.lstrip]. destruct (str.isspace c) eqn:E; [exact IH | exact E].
Qed.

Lemma rstrip_head (c : ascii) (s : string) :
  str.isspace c = false -> exists r, str.rstrip (String c s) = String c r.
Proof.
  intros H. cbn [str.rstrip]. destruct (str.rstrip s) as [|c' r].
  - rewrite H. eexists; reflexivity.
  - eexists; reflexivity.
Qed.

Lemma strip_idem (s : string) : str.strip (str.strip s) = str.strip s.
Proof.
  unfold str.strip. pose proof (lstrip_head s) as H.
  destruct (str.lstrip s) as [|c t]; [reflexivity|].
  destruct (rstrip_head c t H) as [r Hr]. rewrite Hr.
  cbn [str.lstrip]. rewrite H, <- Hr. apply rstrip_idem.
Qed.

Lemma normalize_idem (s : string) : normalize (normalize s) = normalize s.
Proof.
  unfold normalize. rewrite lower_strip, strip_idem, lower_idem. reflexivity.
Qed.

Lemma normalize_strip (s : string) : normalize (str.strip s) = normalize s.
Proof. unfold normalize. rewrite lower_strip, strip_idem. reflexivity. Qed.

Lemma normalize_lower (s : string) : str.lower (normalize s) = normalize s.
Proof. unfold normalize. rewrite lower_strip, lower_idem. reflexivity. Qed.

Lemma normalize_stripped (s : string) : str.strip (normalize s) = normalize s.
Proof. unfold normalize. apply strip_idem. Qed.

(** ** Loops that collect *)

(** A loop whose every pass adds a set to one field of the accumulator. *)
Lemma fold_left_union {A B} (f : A -> B -> A) (proj : A -> gset string)
    (g : B -> gset string) :
  (forall a b, proj (f a b) = proj a ∪ g b) ->
  forall l a, proj (fold_left f l a) = proj a ∪ ⋃ (map g l).
Proof.
  intros H. induction l as [|b l IH]; intros a; cbn.
  - rewrite (right_id_L ∅ (∪)). reflexivity.
  - rewrite IH, H, (assoc_L (∪)). reflexivity.
Qed.

(** A loop whose every pass appends a list to one field of the
    accumulator. *)
Lemma fold_left_append {A B C} (f : A -> B -> A) (proj : A -> list C)
    (g : B -> list C) :
  (forall a b, proj (f a b) = proj a ++ g b) ->
  forall l a, proj (fold_left f l a) = proj a ++ flat_map g l.
Proof.
  intros H. induction l as [|b l IH]; intros a; cbn.
  - rewrite app_nil_r. reflexivity.
  - rewrite IH, H, <- app_assoc. reflexivity.
Qed.

(** A loop whose passes leave a field alone. *)
Lemma fold_left_keeps {A B C} (f : A -> B -> A) (proj : A -> C) :
  (forall a b, proj (f a b) = proj a) ->
  forall l a, proj (fold_left f l a) = proj a.
Proof.
  intros H. induction l as [|b l IH]; intros a; cbn; [reflexivity|].
  rewrite IH. apply H.
Qed.

(** The word form of a lemma: its name with underscores replaced. *)
Lemma add_lemma_fields (w : string) (data : WordSets) (lemma : Lemma) :
  word (add_lemma w data lemma) = word data
  /\ examples (add_lemma w data lemma) = examples data
  /\ pos_tags (add_lemma w data lemma) = pos_tags data
  /\ antonyms (add_lemma w data lemma)
     = antonyms data
       ∪ ⋃ (map (fun a => {[ str.replace_underscore (wordnet.name a) ]})
               (wordnet.antonyms lemma)).
Proof.
  unfold add_lemma.
  rewrite (fold_left_keeps add_antonym word) by reflexivity.
  rewrite (fold_left_keeps add_antonym examples) by reflexivity.
  rewrite (fold_left_keeps add_antonym pos_tags) by reflexivity.
  rewrite (fold_left_union add_antonym antonyms
             (fun a => {[ str.replace_underscore (wordnet.name a) ]}))
    by reflexivity.
  case_decide; repeat split.
Qed.

Lemma add_synset_fields (w : string) (data : WordSets) (synset : Synset) :
  word (add_synset w data synset) = word data
  /\ examples (add_synset w data synset)
     = examples data ∪ list_to_set (wordnet.examples synset)
  /\ pos_tags (add_synset w data synset)
     = pos_tags data ∪ {[ wordnet.pos synset ]}
  /\ antonyms (add_synset w data synset)
     = antonyms data
       ∪ ⋃ (map (fun lemma =>
                   ⋃ (map (fun a =>
                             {[ str.replace_underscore (wordnet.name a) ]})
                          (wordnet.antonyms lemma)))
               (wordnet.lemmas synset)).
Proof.
  unfold add_synset.
  rewrite (fold_left_keeps (add_lemma w) word)
    by (intros; apply add_lemma_fields).
  rewrite (fold_left_keeps (add_lemma w) examples)
    by (intros; apply add_lemma_fields).
  rewrite (fold_left_keeps (add_lemma w) pos_tags)
    by (intros; apply add_lemma_fields).
  rewrite (fold_left_union (add_lemma w) antonyms
             (fun lemma =>
                ⋃ (map (fun a => {[ str.replace_underscore (wordnet.name a) ]})
                       (wordnet.antonyms lemma))))
    by (intros; apply add_lemma_fields).
  destruct (wordnet.examples synset) eqn:E; cbn;
    rewrite ?(right_id_L ∅ (∪)); repeat split.
Qed.

(** The fields of the record built from local entries. *)
Lemma local_record_fields (list_of_set : gset string -> list string)
    (w : string) (l : list Synset) :
  word (local_record list_of_set w l) = w
  /\ examples (local_record list_of_set w l)
     = take 3 (list_of_set
                 (⋃ (map (fun s => list_to_set (wordnet.examples s)) l)))
  /\ pos_tags (local_record list_of_set w l)
     = list_of_set (⋃ (map (fun s => {[ wordnet.pos s ]}) l))
  /\ antonyms (local_record list_of_set w l)
     = ⋃ (map (fun synset =>
                 ⋃ (map (fun lemma =>
                           ⋃ (map (fun a =>
                                     {[ str.replace_underscore
                                          (wordnet.name a) ]})
                                  (wordnet.antonyms lemma)))
                        (wordnet.lemmas synset)))
             l).
Proof.
  unfold local_record. cbn.
  rewrite (fold_left_keeps (add_synset w) word)
    by (intros; apply add_synset_fields).
  rewrite (fold_left_union (add_synset w) examples
             (fun s => list_to_set (wordnet.examples s)))
    by (intros; apply add_synset_fields).
  rewrite (fold_left_union (add_synset w) pos_tags
             (fun s => {[ wordnet.pos s ]}))
    by (intros; apply add_synset_fields).
  rewrite (fold_left_union (add_synset w) antonyms
             (fun synset =>
                ⋃ (map (fun lemma =>
                          ⋃ (map (fun a =>
                                    {[ str.replace_underscore
                                         (wordnet.name a) ]})
                                 (wordnet.antonyms lemma)))
                       (wordnet.lemmas synset))))
    by (intros; apply add_synset_fields).
  cbn. rewrite !(left_id_L ∅ (∪)). repeat split.
Qed.

Lemma api_meaning_fields (data : WordRecord) (meaning : json.Meaning) :
  word (api_meaning data meaning) = word data
  /\ source (api_meaning data meaning) = source data
  /\ definitions (api_meaning data meaning)
     = definitions data ++ api_senses meaning
  /\ pos_tags (api_meaning data meaning)
     = pos_tags data ++ [default "unknown" (json.partOfSpeech meaning)]
  /\ synonyms (api_meaning data meaning)
     = synonyms data ∪ list_to_set (default [] (json.synonyms meaning))
  /\ antonyms (api_meaning data meaning)
     = antonyms data ∪ list_to_set (default [] (json.antonyms meaning))
  /\ examples (api_meaning data meaning)
     = examples data ++ take 2 (default [] (json.examples meaning)).
Proof.
  unfold api_meaning, api_senses.
  destruct meaning as [p [ds|] [ss|] [ants|] [exs|]]; cbn;
    rewrite ?app_nil_r, ?(right_id_L ∅ (∪)); repeat split.
Qed.

(** The fields of a record of the fallback, from the meanings of the
    body. *)
Lemma api_record_fields (list_of_set : gset string -> list string)
    (w : string) (api_data : json.Body) (data : WordRecord) :
  api_record list_of_set w api_data = Some data ->
  let meanings := default [] (json.meanings api_data) in
  word data = w
  /\ source data = Some "WordsAPI"
  /\ definitions data = flat_map api_senses meanings
  /\ definitions data ≠ []
  /\ pos_tags data
     = map (fun m => default "unknown" (json.partOfSpeech m)) meanings
  /\ synonyms data
     = ⋃ (map (fun m => list_to_set (default [] (json.synonyms m))) meanings)
  /\ antonyms data
     = ⋃ (map (fun m => list_to_set (default [] (json.antonyms m))) meanings)
  /\ examples data
     = take 3 (list_of_set
                 (list_to_set
                    (flat_map (fun m => take 2 (default [] (json.examples m)))
                              meanings))).
Proof.
  unfold api_record.
  assert (match json.meanings api_data with
          | Some meanings => fold_left api_meaning meanings (api_empty w)
          | None => api_empty w
          end
          = fold_left api_meaning (default [] (json.meanings api_data))
                      (api_empty w)) as ->
      by (destruct (json.meanings api_data); reflexivity).
  set (meanings := default [] (json.meanings api_data)).
  set (d := fold_left api_meaning meanings (api_empty w)).
  cbn. destruct (definitions d) as [|s0 l0] eqn:E; [discriminate|].
  intros [= <-]. cbn. subst d.
  rewrite (fold_left_keeps api_meaning word) by (intros; apply api_meaning_fields).
  rewrite (fold_left_keeps api_meaning source)
    by (intros; apply api_meaning_fields).
  rewrite (fold_left_append api_meaning pos_tags
             (fun m => [default "unknown" (json.partOfSpeech m)]))
    by (intros; apply api_meaning_fields).
  rewrite (fold_left_union api_meaning synonyms
             (fun m => list_to_set (default [] (json.synonyms m))))
    by (intros; apply api_meaning_fields).
  rewrite (fold_left_union api_meaning antonyms
             (fun m => list_to_set (default [] (json.antonyms m))))
    by (intros; apply api_meaning_fields).
  rewrite (fold_left_append api_meaning examples
             (fun m => take 2 (default [] (json.examples m))))
    by (intros; apply api_meaning_fields).
  rewrite (fold_left_append api_meaning definitions api_senses) in E
    by (intros; apply api_meaning_fields).
  rewrite (fold_left_append api_meaning definitions api_senses)
    by (intros; apply api_meaning_fields).
  cbn in *. rewrite !(left_id_L ∅ (∪)).
  split; [reflexivity|]. split; [reflexivity|]. split; [reflexivity|].
  split; [rewrite E; discriminate|].
  split; [|repeat split].
  clear. induction meanings as [|m l IH]; [reflexivity|]. cbn. congruence.
Qed.

Lemma elem_of_union_map {B} (g : B -> gset string) (l : list B) (x : string) :
  x ∈ ⋃ (map g l) <-> exists b, b ∈ l /\ x ∈ g b.
Proof.
  induction l as [|b l IH]; cbn.
  - split; [intros H; inversion H | intros (b & H & _); inversion H].
  - rewrite elem_of_union, IH. split.
    + intros [H | (b' & Hin & H)].
      * exists b. split; [left | exact H].
      * exists b'. split; [right; exact Hin | exact H].
    + intros (b' & Hin & H). apply elem_of_cons in Hin as [-> | Hin].
      * left; exact H.
      * right. exists b'. split; assumption.
Qed.

Lemma elem_of_flat_map {B C} (g : B -> list C) (l : list B) (x : C) :
  x ∈ flat_map g l <-> exists b, b ∈ l /\ x ∈ g b.
Proof.
  induction l as [|b l IH]; cbn.
  - split; [intros H; inversion H | intros (b & H & _); inversion H].
  - rewrite elem_of_app, IH. split.
    + intros [H | (b' & Hin & H)].
      * exists b. split; [left | exact H].
      * exists b'. split; [right; exact Hin | exact H].
    + intros (b' & Hin & H). apply elem_of_cons in Hin as [-> | Hin].
      * left; exact H.
      * right. exists b'. split; assumption.
Qed.

(** A listing of a set has as many entries as the set has elements. *)
Lemma lists_elements_length (list_of_set : gset string -> list string)
    (s : gset string) :
  lists_elements list_of_set -> length (list_of_set s) = size s.
Proof.
  intros H. destruct (H s) as [Hnd Hin].
  unfold size, set_size. cbn. apply Permutation_length.
  apply NoDup_Permutation; [exact Hnd | apply NoDup_elements|].
  intros x. rewrite Hin, elem_of_elements. reflexivity.
Qed.

Lemma elements_lists_elements : lists_elements elements.
Proof.
  intros s. split; [apply NoDup_elements|].
  intros x. apply elem_of_elements.
Qed.

(** ** More on the records of a lookup *)

Section MoreRecords.

Variable synsets : string -> list Synset.
Variable WORDS_API_KEY : option string.
Variable requests_get : string -> string -> HttpOutcome.
Variable list_of_set : gset string -> list string.

Local Abbreviation lookup := (get_word_data synsets WORDS_API_KEY requests_get list_of_set).
Local Abbreviation fetch := (get_word_from_api WORDS_API_KEY requests_get list_of_set).

Lemma lookup_local_Some (raw : string) (data : WordRecord) :
  synsets (normalize raw) ≠ [] ->
  result (lookup raw) = Some data ->
  data = local_record list_of_set (normalize raw) (synsets (normalize raw)).
Proof.
  intros Hs H.
  apply get_word_data_Some in H as [_ [[_ ->] | [Hs' _]]];
    [reflexivity | congruence].
Qed.

Lemma local_record_antonyms (w : string) (l : list Synset) (x : string) :
  x ∈ antonyms (local_record list_of_set w l)
  <-> exists synset lemma antonym,
        synset ∈ l
        /\ lemma ∈ wordnet.lemmas synset
        /\ antonym ∈ wordnet.antonyms lemma
        /\ x = str.replace_underscore (wordnet.name antonym).
Proof.
  destruct (local_record_fields list_of_set w l) as (_ & _ & _ & ->).
  rewrite elem_of_union_map. split.
  - intros (s & Hin & Hx). apply elem_of_union_map in Hx as (lm & Hl & Hx).
    apply elem_of_union_map in Hx as (a & Ha & Hx).
    apply elem_of_singleton in Hx. exists s, lm, a. auto.
  - intros (s & lm & a & Hin & Hl & Ha & ->). exists s. split; [exact Hin|].
    apply elem_of_union_map. exists lm. split; [exact Hl|].
    apply elem_of_union_map. exists a. split; [exact Ha|].
    apply elem_of_singleton. reflexivity.
Qed.

(** With a credential, the fallback sends one request, whatever comes
    back. *)
Lemma fetch_with_credential (word api_key : string) :
  WORDS_API_KEY = Some api_key -> api_key ≠ "" ->
  fetch word
  = ([HttpGet (api_url word)],
     match requests_get (api_url word) api_key with
     | Response 200 (Some api_data) => api_record list_of_set word api_data
     | _ => None
     end).
Proof.
  intros Hk Hne. unfold get_word_from_api. rewrite Hk.
  destruct api_key as [|c k]; [congruence|].
  unfold http_get. cbn [bind].
  destruct (requests_get _ _) as [|status [body|]]; [reflexivity| |].
  - case_decide as Hs; [|subst status; reflexivity].
    cbn. destruct status as [|p|p]; try reflexivity.
    do 8 (destruct p as [p|p|]; try reflexivity). congruence.
  - case_decide as Hs; [|subst status; reflexivity].
    cbn. destruct status as [|p|p]; try reflexivity.
    do 8 (destruct p as [p|p|]; try reflexivity).
Qed.

Lemma fetch_200 (word api_key : string) (api_data : json.Body)
    (data : WordRecord) :
  WORDS_API_KEY = Some api_key ->
  requests_get (api_url word) api_key = Response 200 (Some api_data) ->
  result (fetch word) = Some data ->
  api_record list_of_set word api_data = Some data.
Proof.
  intros Hk Hr H.
  apply get_word_from_api_Some in H as (k & b & Hk' & _ & Hr' & H).
  rewrite Hk in Hk'. injection Hk' as <-.
  rewrite Hr in Hr'. injection Hr' as <-. exact H.
Qed.

(** X1. The word of every record a lookup returns is the normalized
    input; it is non-empty, in lower case and without surrounding
    whitespace.  The body of [get_word_data] does for that word what it
    does for the input as given: the undecorated body leaves the same
    trace and returns the same result, and so does the body whose
    fallback is the decorated one, from the same stores. *)
Theorem lookup_word_normalized (raw : string) (data : WordRecord) :
  result (lookup raw) = Some data ->
  word data = normalize raw
  /\ word data ≠ ""
  /\ str.lower (word data) = word data
  /\ str.strip (word data) = word data
  /\ lookup (word data) = lookup raw
  /\ (forall now caches,
        cached.get_word_data_body synsets WORDS_API_KEY requests_get
                                  list_of_set now caches (word data)
        = cached.get_word_data_body synsets WORDS_API_KEY requests_get
                                    list_of_set now caches raw).
Proof.
  intros H.
  assert (word data = normalize raw) as Hw.
  { apply get_word_data_Some in H as [_ [[_ ->] | [_ H]]].
    - apply local_record_fields.
    - apply get_word_from_api_Some in H as (k & b & _ & _ & _ & H).
      apply (api_record_fields _ _ _ _ H). }
  apply get_word_data_Some in H as [Hne _]. rewrite Hw.
  split; [reflexivity|]. split; [exact Hne|].
  split; [apply normalize_lower|]. split; [apply normalize_stripped|].
  split.
  - unfold get_word_data. rewrite normalize_idem. reflexivity.
  - intros now caches. unfold cached.get_word_data_body.
    rewrite normalize_idem. reflexivity.
Qed.

(** X2. The body of [get_word_data] sends no request to the API when
    the word has local entries, when no credential is configured, and
    when the input is blank (blank input does not reach the database
    either); the decorated function sends none in these cases either.  A
    decorated call that is served from the store queries nothing and
    sends nothing.  With a credential and a non-empty word without local
    entries, a decorated call that is not served from the store queries
    the database once and sends exactly one request, for that word, when
    the fallback is not served from its store, and no request when it
    is. *)
Theorem lookup_requests (raw : string) :
  let page :=
    cached.get_word_data synsets WORDS_API_KEY requests_get list_of_set in
  (synsets (normalize raw) ≠ [] -> requests (trace (lookup raw)) = [])
  /\ (no_credential WORDS_API_KEY -> requests (trace (lookup raw)) = [])
  /\ (normalize raw = "" ->
      requests (trace (lookup raw)) = [] /\ queries (trace (lookup raw)) = [])
  /\ (forall now caches,
        synsets (normalize raw) ≠ [] \/ no_credential WORDS_API_KEY
        \/ normalize raw = "" ->
        requests (trace (page now caches raw)) = [])
  /\ (forall now caches value,
        cached.fresh (cached.data_cache caches) now raw = Some value ->
        trace (page now caches raw) = [])
  /\ (forall api_key now caches,
        normalize raw ≠ "" -> synsets (normalize raw) = [] ->
        WORDS_API_KEY = Some api_key -> api_key ≠ "" ->
        cached.fresh (cached.data_cache caches) now raw = None ->
        (cached.fresh (cached.api_cache caches) now (normalize raw) = None ->
         requests (trace (page now caches raw)) = [api_url (normalize raw)]
         /\ queries (trace (page now caches raw)) = [normalize raw])
        /\ (forall value,
              cached.fresh (cached.api_cache caches) now (normalize raw)
              = Some value ->
              requests (trace (page now caches raw)) = []
              /\ queries (trace (page now caches raw)) = [normalize raw])).
Proof.
  intros page. subst page.
  assert (normalize raw = "" -> lookup raw = ([], None)) as Hempty
      by apply get_word_data_empty.
  assert (synsets (normalize raw) ≠ [] -> requests (trace (lookup raw)) = [])
    as H1.
  { intros Hs. destruct (decide (normalize raw = "")) as [He|Hne].
    + rewrite (Hempty He). reflexivity.
    + rewrite (get_word_data_local _ _ _ _ _ Hne Hs). reflexivity. }
  assert (no_credential WORDS_API_KEY -> requests (trace (lookup raw)) = [])
    as H2.
  { intros Hk. destruct (decide (normalize raw = "")) as [He|Hne].
    { rewrite (Hempty He). reflexivity. }
    destruct (decide (synsets (normalize raw) = [])) as [Hs|Hs].
    + rewrite (get_word_data_miss _ _ _ _ _ Hne Hs).
      rewrite (get_word_from_api_no_credential _ _ _ _ Hk). reflexivity.
    + rewrite (get_word_data_local _ _ _ _ _ Hne Hs). reflexivity. }
  split; [exact H1|]. split; [exact H2|].
  split; [intros He; rewrite (Hempty He); split; reflexivity|].
  split; [|split].
  - intros now caches Hcase.
    destruct (cached.fresh (cached.data_cache caches) now raw) as [v|] eqn:Ed.
    { rewrite (cached_lookup_hit _ _ _ _ _ _ _ _ Ed). reflexivity. }
    rewrite (cached_lookup_miss _ _ _ _ _ _ _ Ed). cbn [trace fst].
    destruct (decide (normalize raw = "")) as [He|Hne].
    { rewrite (cached_body_empty _ _ _ _ _ _ _ He). reflexivity. }
    destruct (decide (synsets (normalize raw) = [])) as [Hs|Hs].
    2: { rewrite (cached_body_local _ _ _ _ _ _ _ Hne Hs). reflexivity. }
    destruct Hcase as [Hc | [Hc | Hc]]; [congruence | | congruence].
    rewrite (cached_body_miss _ _ _ _ _ _ _ Hne Hs). cbn [trace fst requests].
    destruct (cached.fresh (cached.api_cache caches) now (normalize raw))
      as [v|] eqn:Ea.
    + rewrite (cached_fetch_hit _ _ _ _ _ _ _ Ea). reflexivity.
    + rewrite (cached_fetch_miss _ _ _ _ _ _ Ea). cbn [trace fst].
      rewrite (get_word_from_api_no_credential _ _ _ _ Hc). reflexivity.
  - intros now caches value Hhit.
    rewrite (cached_lookup_hit _ _ _ _ _ _ _ _ Hhit). reflexivity.
  - intros api_key now caches Hne Hs Hk Hkey Ed.
    rewrite (cached_lookup_miss _ _ _ _ _ _ _ Ed). cbn [trace fst].
    rewrite (cached_body_miss _ _ _ _ _ _ _ Hne Hs).
    cbn [trace fst requests queries]. split.
    + intros Ea. rewrite (cached_fetch_miss _ _ _ _ _ _ Ea). cbn [trace fst].
      rewrite (fetch_with_credential _ _ Hk Hkey). split; reflexivity.
    + intros value Ea. rewrite (cached_fetch_hit _ _ _ _ _ _ _ Ea).
      split; reflexivity.
Qed.


(** X4. A record of the fallback names the word asked for, is marked as
    remote, lists the part of speech of every meaning in order (unknown
    where the meaning has none), and holds the definitions of the meanings
    in the order of the body, each with the part of speech of its meaning
    and the empty text where the definition has none; there is at least
    one. *)
Theorem remote_record_contents (w api_key : string) (api_data : json.Body)
    (data : WordRecord) :
  WORDS_API_KEY = Some api_key ->
  requests_get (api_url w) api_key = Response 200 (Some api_data) ->
  result (fetch w) = Some data ->
  word data = w
  /\ source_of data = remote
  /\ pos_tags data
     = map (fun m => default "unknown" (json.partOfSpeech m))
           (default [] (json.meanings api_data))
  /\ definitions data
     = flat_map api_senses (default [] (json.meanings api_data))
  /\ definitions data ≠ [].
Proof.
  intros Hk Hr H. pose proof (fetch_200 _ _ _ _ Hk Hr H) as Ha.
  destruct (api_record_fields _ _ _ _ Ha) as (Hw & Hs & Hd & Hne & Hp & _).
  split; [exact Hw|]. split; [|split; [exact Hp | split; assumption]].
  unfold source_of. rewrite Hs. case_decide; [reflexivity | congruence].
Qed.

(** X5. The synonyms of a record of the fallback are exactly the strings
    listed as synonyms by some meaning of the body, and its antonyms
    exactly those listed as antonyms; neither is compared with the word. *)
Theorem remote_synonyms_antonyms (w api_key : string) (api_data : json.Body)
    (data : WordRecord) :
  WORDS_API_KEY = Some api_key ->
  requests_get (api_url w) api_key = Response 200 (Some api_data) ->
  result (fetch w) = Some data ->
  (forall x,
      x ∈ synonyms data
      <-> exists m, m ∈ default [] (json.meanings api_data)
                    /\ x ∈ default [] (json.synonyms m))
  /\ (forall x,
        x ∈ antonyms data
        <-> exists m, m ∈ default [] (json.meanings api_data)
                      /\ x ∈ default [] (json.antonyms m)).
Proof.
  intros Hk Hr H. pose proof (fetch_200 _ _ _ _ Hk Hr H) as Ha.
  destruct (api_record_fields _ _ _ _ Ha) as (_ & _ & _ & _ & _ & Hs & Hn & _).
  split; intros x; [rewrite Hs | rewrite Hn]; rewrite elem_of_union_map;
    split; intros (m & Hm & Hx); exists m; (split; [exact Hm|]);
    [apply elem_of_list_to_set in Hx | apply elem_of_list_to_set
    |apply elem_of_list_to_set in Hx | apply elem_of_list_to_set]; exact Hx.
Qed.

(** X6. When [list] lists the elements of a set each once, the examples of
    a record of the fallback are free of duplicates, each is one of the
    first two examples of some meaning, and there are 3 of them or, when
    the meanings offer fewer distinct ones, all of those. *)
Theorem remote_examples (w api_key : string) (api_data : json.Body)
    (data : WordRecord) :
  lists_elements list_of_set ->
  WORDS_API_KEY = Some api_key ->
  requests_get (api_url w) api_key = Response 200 (Some api_data) ->
  result (fetch w) = Some data ->
  NoDup (examples data)
  /\ (forall x,
        x ∈ examples data ->
        exists m, m ∈ default [] (json.meanings api_data)
                  /\ x ∈ take 2 (default [] (json.examples m)))
  /\ length (examples data)
     = min 3 (size (list_to_set (C := gset string)
                      (flat_map (fun m => take 2 (default [] (json.examples m)))
                                (default [] (json.meanings api_data))))).
Proof.
  intros Hl Hk Hr H. pose proof (fetch_200 _ _ _ _ Hk Hr H) as Ha.
  destruct (api_record_fields _ _ _ _ Ha) as (_ & _ & _ & _ & _ & _ & _ & He).
  rewrite He. split; [|split].
  - apply (sublist_NoDup _ _ (proj1 (Hl _)) (sublist_take _ _)).
  - intros x Hx. apply subseteq_take in Hx. apply (Hl _) in Hx.
    apply elem_of_list_to_set in Hx. apply elem_of_flat_map in Hx. exact Hx.
  - rewrite length_take, (lists_elements_length _ _ Hl). reflexivity.
Qed.

(** X7. The antonyms of a record built from local entries are exactly the
    word forms, underscores replaced by spaces, of the antonyms of the
    lemmas of the word's entries; none is left out, not even the word
    itself. *)
Theorem local_antonyms (raw : string) (data : WordRecord) :
  synsets (normalize raw) ≠ [] ->
  result (lookup raw) = Some data ->
  forall x,
    x ∈ antonyms data
    <-> exists synset lemma antonym,
          synset ∈ synsets (normalize raw)
          /\ lemma ∈ wordnet.lemmas synset
          /\ antonym ∈ wordnet.antonyms lemma
          /\ x = str.replace_underscore (wordnet.name antonym).
Proof.
  intros Hs H x. rewrite (lookup_local_Some _ _ Hs H).
  apply local_record_antonyms.
Qed.

(** X8. When [list] lists the elements of a set each once, a record built
    from local entries has examples without duplicates, each an example
    of one of the word's entries, 3 of them or, when the entries offer
    fewer distinct ones, all of those; its parts of speech are those of
    the entries, each once, and they include the part of speech of every
    definition. *)
Theorem local_examples_pos_tags (raw : string) (data : WordRecord) :
  lists_elements list_of_set ->
  synsets (normalize raw) ≠ [] ->
  result (lookup raw) = Some data ->
  NoDup (examples data)
  /\ (forall x,
        x ∈ examples data ->
        exists synset, synset ∈ synsets (normalize raw)
                       /\ x ∈ wordnet.examples synset)
  /\ length (examples data)
     = min 3 (size (⋃ (map (fun s => list_to_set (C := gset string)
                                       (wordnet.examples s))
                          (synsets (normalize raw)))))
  /\ NoDup (pos_tags data)
  /\ (forall p,
        p ∈ pos_tags data
        <-> exists synset, synset ∈ synsets (normalize raw)
                           /\ p = wordnet.pos synset)
  /\ (forall defn, defn ∈ definitions data -> pos defn ∈ pos_tags data).
Proof.
  intros Hl Hs H. rewrite (lookup_local_Some _ _ Hs H).
  rewrite local_record_definitions.
  destruct (local_record_fields list_of_set (normalize raw)
              (synsets (normalize raw))) as (_ & -> & -> & _).
  assert (forall p,
            p ∈ list_of_set (⋃ (map (fun s => {[ wordnet.pos s ]})
                                   (synsets (normalize raw))))
            <-> exists synset, synset ∈ synsets (normalize raw)
                               /\ p = wordnet.pos synset) as Hp.
  { intros p. rewrite (proj2 (Hl _)), elem_of_union_map.
    split; intros (s & Hin & Hx); exists s; (split; [exact Hin|]);
      [apply elem_of_singleton in Hx | apply elem_of_singleton]; exact Hx. }
  split; [|split; [|split; [|split; [|split]]]].
  - apply (sublist_NoDup _ _ (proj1 (Hl _)) (sublist_take _ _)).
  - intros x Hx. apply subseteq_take in Hx. apply (Hl _) in Hx.
    apply elem_of_union_map in Hx as (s & Hin & Hx).
    apply elem_of_list_to_set in Hx. exists s. auto.
  - rewrite length_take, (lists_elements_length _ _ Hl). reflexivity.
  - apply (Hl _).
  - exact Hp.
  - intros defn Hd. apply list_elem_of_fmap in Hd as (s & -> & Hin).
    apply Hp. exists s. auto.
Qed.

(** X9. No synonym and no antonym of a record built from local entries
    contains an underscore, and no synonym the console collects does. *)
Theorem local_no_underscore (raw : string) (data : WordRecord) :
  synsets (normalize raw) ≠ [] ->
  result (lookup raw) = Some data ->
  (forall x, x ∈ synonyms data ∪ antonyms data ->
             str.contains str.underscore x = false)
  /\ (forall x,
        x ∈ snd (dictionary.collect (normalize raw) (synsets (normalize raw)))
        -> str.contains str.underscore x = false).
Proof.
  intros Hs H. split.
  - intros x Hx. apply elem_of_union in Hx as [Hx | Hx].
    + rewrite (lookup_local_Some _ _ Hs H) in Hx.
      apply local_record_synonyms in Hx as (_ & l & _ & _ & -> & _).
      apply replace_underscore_no_underscore.
    + rewrite (lookup_local_Some _ _ Hs H) in Hx.
      apply local_record_antonyms in Hx as (_ & _ & a & _ & _ & _ & ->).
      apply replace_underscore_no_underscore.
  - intros x Hx. apply collect_synonyms in Hx as (_ & l & _ & _ & -> & _).
    apply replace_underscore_no_underscore.
Qed.

End MoreRecords.

(** ** More on the console *)

#[global] Instance str_le_total : Total str.le.
Proof. intros a b. apply String.leb_total. Qed.

Lemma append_empty_r (s : string) : s +:+ "" = s.
Proof.
  induction s as [|c s IH]; [reflexivity|].
  change (String c (s +:+ "") = String c s). rewrite IH. reflexivity.
Qed.

Lemma print_all_trace (lines : list string) :
  trace (dictionary.print_all lines)
  = map (fun line => Stdout (line +:+ nl)) lines.
Proof.
  induction lines as [|x l IH]; [reflexivity|].
  cbn [dictionary.print_all map]. rewrite trace_bind, IH. reflexivity.
Qed.

Section MoreConsole.

Variable synsets : string -> list Synset.

Local Abbreviation loop := (dictionary.loop synsets).
Local Abbreviation look_up := (dictionary.get_definitions_and_synonyms synsets).

Lemma look_up_queries (raw : string) :
  queries (trace (look_up raw)) = [normalize raw]
  /\ requests (trace (look_up raw)) = [].
Proof.
  destruct (decide (synsets (normalize raw) = [])) as [Hs|Hs].
  - rewrite (console_missing _ _ Hs). split; reflexivity.
  - rewrite (console_found _ _ Hs). cbn [trace fst queries requests].
    rewrite only_stdout_queries, only_stdout_requests;
      [split; reflexivity | |]; apply display_results_only_stdout.
Qed.

(** X10. The console's lookup asks the database exactly once, for the
    normalized input, even when that is empty, and never sends a request
    to the API; it returns true exactly when the database has entries, and
    otherwise writes the one line that says so. *)
Theorem console_lookup_outcome (raw : string) :
  queries (trace (look_up raw)) = [normalize raw]
  /\ requests (trace (look_up raw)) = []
  /\ (result (look_up raw) = true <-> synsets (normalize raw) ≠ [])
  /\ (synsets (normalize raw) = [] ->
      stdout (trace (look_up raw))
      = ("Error: No definitions found for '" +:+ normalize raw +:+ "'") +:+ nl).
Proof.
  destruct (look_up_queries raw) as [Hq Hr].
  split; [exact Hq|]. split; [exact Hr|]. split.
  - destruct (decide (synsets (normalize raw) = [])) as [Hs|Hs].
    + rewrite (console_missing _ _ Hs). cbn. split; [discriminate | congruence].
    + rewrite (console_found _ _ Hs). cbn. split; auto.
  - intros Hs. rewrite (console_missing _ _ Hs). cbn [trace fst stdout].
    apply append_empty_r.
Qed.

(** An input that ends the loop does so with exit code 0, whatever
    follows it. *)
Lemma loop_stop (item : dictionary.Stdin) (script : list dictionary.Stdin) :
  ends_loop item = true ->
  loop (item :: script) = loop [item]
  /\ result (loop [item]) = dictionary.SysExit 0
  /\ queries (trace (loop [item])) = [].
Proof.
  destruct item as [s| |]; cbn [ends_loop]; intros H.
  - apply bool_decide_eq_true in H.
    rewrite !(loop_quit _ _ _ H). repeat split.
  - repeat split.
  - discriminate.
Qed.

(** Any other input is dealt with and the loop goes on. *)
Lemma loop_continue (item : dictionary.Stdin) (script : list dictionary.Stdin) :
  ends_loop item = false ->
  result (loop (item :: script)) = result (loop script)
  /\ queries (trace (loop (item :: script)))
     = looked_up [item] ++ queries (trace (loop script)).
Proof.
  destruct item as [s| |]; cbn [ends_loop]; intros H.
  - apply bool_decide_eq_false in H. cbn [looked_up ends_loop].
    rewrite (bool_decide_eq_false_2 _ H).
    destruct (decide (str.strip s = "")) as [He|He].
    + rewrite (loop_empty _ _ _ He), He. split; reflexivity.
    + rewrite (loop_word _ _ _ H He). cbn [trace result fst snd queries].
      rewrite queries_app, (proj1 (look_up_queries _)), normalize_strip.
      destruct (str.strip s); [congruence|]. split; reflexivity.
  - discriminate.
  - cbn [dictionary.loop]. rewrite !result_bind, !trace_bind, !queries_app.
    split; reflexivity.
Qed.

(** X11. A run of the console ends, with exit code 0, exactly when the
    script holds an interrupt or a line that is quit, exit or q once
    stripped and put in lower case; otherwise, and so for any number of
    blank lines, words and ends of file, it goes on waiting for input.
    What follows the input that ends the run is never read. *)
Theorem console_run_outcome :
  (forall script,
      result (dictionary.main synsets script)
      = if existsb ends_loop script then dictionary.SysExit 0
        else dictionary.Waiting)
  /\ (forall before item after,
        ends_loop item = true ->
        dictionary.main synsets (before ++ item :: after)
        = dictionary.main synsets (before ++ [item])).
Proof.
  split.
  - intros script. unfold dictionary.main. rewrite result_bind.
    induction script as [|item script IH]; [reflexivity|].
    cbn [existsb]. destruct (ends_loop item) eqn:E.
    + destruct (loop_stop item script E) as (-> & -> & _). reflexivity.
    + rewrite (proj1 (loop_continue item script E)). exact IH.
  - intros before item after E. unfold dictionary.main.
    assert (loop (before ++ item :: after) = loop (before ++ [item])) as ->;
      [|reflexivity].
    induction before as [|x before IH].
    + apply loop_stop, E.
    + cbn [app]. destruct x as [s| |].
      * cbn [dictionary.loop]. rewrite IH. reflexivity.
      * reflexivity.
      * cbn [dictionary.loop]. rewrite IH. reflexivity.
Qed.

(** X12. The words a run of the console asks the database for are, in
    order, the normalized forms of the lines before the input that ends
    the run, blank lines left out. *)
Theorem console_run_queries (script : list dictionary.Stdin) :
  queries (trace (dictionary.main synsets script)) = looked_up script.
Proof.
  unfold dictionary.main. rewrite trace_bind, queries_app.
  change (queries (trace dictionary.banner)) with (@nil string).
  cbn [app]. induction script as [|item script IH]; [reflexivity|].
  destruct (ends_loop item) eqn:E.
  - destruct (loop_stop item script E) as (-> & _ & ->).
    cbn [looked_up]. rewrite E. reflexivity.
  - rewrite (proj2 (loop_continue item script E)), IH.
    cbn [looked_up]. rewrite E.
    destruct item as [s| |]; [destruct (str.strip s)|..]; reflexivity.
Qed.

End MoreConsole.

(** X13. For a word that is found, the console writes the heading with the
    capitalized word, the number of definitions, one numbered line for
    every definition in order, and then one line for every synonym, in
    ascending order of character codes and each synonym once, or the line
    that there are no synonyms when there is none. *)
Theorem console_display_lines (word : string) (definitions : list string)
    (synonyms : gset string) :
  exists listed,
    Sorted str.le listed
    /\ NoDup listed
    /\ (forall x, x ∈ listed <-> x ∈ synonyms)
    /\ trace (dictionary.display_results word definitions synonyms)
       = [Stdout ((nl +:+ dictionary.rule) +:+ nl);
          Stdout (("Word: " +:+ str.capitalize word) +:+ nl);
          Stdout (dictionary.rule +:+ nl);
          Stdout ((nl +:+ "Definitions (" +:+ pretty (length definitions)
                   +:+ "):") +:+ nl)]
         ++ map (fun line => Stdout (line +:+ nl))
                (imap (fun i defn => "  " +:+ pretty (S i) +:+ ". " +:+ defn)
                      definitions)
         ++ match listed with
            | [] => [Stdout ((nl +:+ "No synonyms found.") +:+ nl)]
            | _ =>
                Stdout ((nl +:+ "Synonyms:") +:+ nl)
                  :: map (fun syn => Stdout (("  - " +:+ syn) +:+ nl)) listed
            end
         ++ [Stdout ("" +:+ nl)].
Proof.
  exists (str.sorted (elements synonyms)).
  assert (str.sorted (elements synonyms) ≡ₚ elements synonyms) as Hperm
      by apply merge_sort_Permutation.
  split; [apply Sorted_merge_sort, _|].
  split; [rewrite Hperm; apply NoDup_elements|].
  split; [intros x; rewrite Hperm; apply elem_of_elements|].
  unfold dictionary.display_results.
  rewrite !trace_bind, print_all_trace. cbn [trace print fst app].
  do 5 f_equal. case_decide as He.
  - subst synonyms. reflexivity.
  - destruct (str.sorted (elements synonyms)) as [|x l] eqn:E.
    + apply Permutation_nil_l in Hperm.
      symmetry in Hperm. apply elements_empty_inv in Hperm.
      apply leibniz_equiv in Hperm. contradiction.
    + rewrite trace_bind, print_all_trace, map_map. reflexivity.
Qed.

(** ** More on the session *)

Lemma add_to_history_entries (P : string -> Prop) (word : string)
    (st : SessionState) :
  P word -> (forall x, x ∈ history st -> P x) ->
  forall x, x ∈ history (add_to_history word st) -> P x.
Proof.
  intros Hw Hst x. rewrite history_add_to_history.
  case_decide; [apply Hst|].
  intros Hx. apply elem_of_cons in Hx as [-> | Hx]; [exact Hw|].
  apply Hst. eapply subseteq_take, Hx.
Qed.

(** Every entry of the history is a typed text, stripped and not blank. *)
Lemma page_run_entries (events : list PageEvent) (w : string) :
  w ∈ history (page_run events) -> w ≠ "" /\ str.strip w = w.
Proof.
  revert w. unfold page_run.
  apply (fold_left_inv page_step
           (fun st => forall w, w ∈ history st -> w ≠ "" /\ str.strip w = w)).
  - intros w H. inversion H.
  - intros st [text| | |i| |i] H _; cbn [page_step].
    + unfold enter, handle_search_input. cbn [search_input].
      destruct (str.strip text) as [|c t] eqn:E; [exact H|].
      apply add_to_history_entries; [|exact H].
      split; [discriminate | rewrite <- E; apply strip_idem].
    + unfold search_button.
      destruct (str.strip (search_input st)) as [|c t] eqn:E; [exact H|].
      apply add_to_history_entries; [|exact H].
      split; [discriminate | rewrite <- E; apply strip_idem].
    + intros w Hw. inversion Hw.
    + unfold history_button. destruct (history st !! i); exact H.
    + exact H.
    + unfold suggestion_button. destruct (suggestions !! i); exact H.
Qed.

(** X14. Whatever the user does in a session (typing, the search, clear,
    new search, history and suggestion buttons), the history holds at
    most 5 entries, no entry twice, and every entry is a text as it was
    typed, stripped of surrounding whitespace and not blank. *)
Theorem session_history_invariant (events : list PageEvent) :
  length (history (page_run events)) <= 5
  /\ NoDup (history (page_run events))
  /\ (forall w, w ∈ history (page_run events) -> w ≠ "" /\ str.strip w = w).
Proof.
  destruct (page_run_inv events) as [Hlen Hnd].
  split; [exact Hlen|]. split; [exact Hnd|].
  intros w. apply page_run_entries.
Qed.

(** X15. Recording a word puts it in the history, whatever the history
    was; recording it again changes nothing; and the history after the
    call holds nothing but the word and entries that were there. *)
Theorem add_to_history_records (word : string) (st : SessionState) :
  word ∈ history (add_to_history word st)
  /\ add_to_history word (add_to_history word st) = add_to_history word st
  /\ (forall x, x ∈ history (add_to_history word st) ->
                x = word \/ x ∈ history st).
Proof.
  assert (word ∈ history (add_to_history word st)) as Hin.
  { rewrite history_add_to_history. case_decide; [assumption | left]. }
  split; [exact Hin|]. split; [apply add_to_history_present, Hin|].
  intros x. rewrite history_add_to_history. case_decide; [auto|].
  intros Hx. apply elem_of_cons in Hx as [-> | Hx]; [left; reflexivity|].
  right. eapply subseteq_take, Hx.
Qed.

Section MorePage.

Variable synsets : string -> list Synset.
Variable WORDS_API_KEY : option string.
Variable requests_get : string -> string -> HttpOutcome.
Variable list_of_set : gset string -> list string.

Local Abbreviation lookup := (get_word_data synsets WORDS_API_KEY requests_get list_of_set).
Local Abbreviation show := (display synsets WORDS_API_KEY requests_get list_of_set).

(** The page looks up a word that is stripped and not blank as it is. *)
Lemma display_current_word (st : SessionState) (w : string) :
  current_word st = Some w -> w ≠ "" -> str.strip w = w ->
  show st = Some (lookup w).
Proof.
  intros Hc Hne Hs. unfold display. rewrite Hc, Hs.
  destruct w; [congruence | reflexivity].
Qed.

(** X16. Typing a text other than the one the input holds runs the
    handler.  When the text is not blank, the page then looks up the
    stripped text, which normalizes to the same word as the text as
    typed, the stripped text is the current word and it is in the
    history; when the text is blank, neither the history nor the current
    word changes. *)
Theorem typed_word_looked_up (typed : string) (st : SessionState) :
  typed ≠ search_input st ->
  (str.strip typed ≠ "" ->
   show (enter typed st) = Some (lookup (str.strip typed))
   /\ normalize (str.strip typed) = normalize typed
   /\ current_word (enter typed st) = Some (str.strip typed)
   /\ str.strip typed ∈ history (enter typed st))
  /\ (str.strip typed = "" ->
      history (enter typed st) = history st
      /\ current_word (enter typed st) = current_word st).
Proof.
  intros _. split.
  - intros Hne. destruct (history_enter typed st Hne) as [Hh Hc].
    split; [|split; [apply normalize_strip | split; [exact Hc|]]].
    + apply (display_current_word _ _ Hc Hne (strip_idem typed)).
    + rewrite Hh, history_add_to_history. case_decide; [assumption | left].
  - intros He. unfold enter, handle_search_input. cbn [search_input].
    rewrite He. split; reflexivity.
Qed.

(** X17. In every state a session can reach, a click on an entry of the
    history leaves the history as it is, in the same order, and makes
    the page look up that entry. *)
Theorem history_click_looked_up (events : list PageEvent) (i : nat)
    (w : string) :
  history (page_run events) !! i = Some w ->
  history (history_button i (page_run events)) = history (page_run events)
  /\ show (history_button i (page_run events)) = Some (lookup w).
Proof.
  intros Hi.
  destruct (page_run_entries events w) as [Hne Hs].
  { apply list_elem_of_lookup. exists i. exact Hi. }
  unfold history_button. rewrite Hi. split; [reflexivity|].
  apply display_current_word; [reflexivity | exact Hne | exact Hs].
Qed.

End MorePage.

(** X18. Typing a text and then clicking the search button leaves the
    session as the typing left it: the word is recorded once, by the
    handler of the text input. *)
Theorem search_after_enter (typed : string) (st : SessionState) :
  search_button (enter typed st) = enter typed st.
Proof.
  set (st1 := enter typed st).
  assert (search_input st1 = typed) as Hi.
  { unfold st1, enter, handle_search_input. cbn [search_input].
    destruct (str.strip typed); [reflexivity|].
    unfold add_to_history. case_decide; reflexivity. }
  unfold search_button. rewrite Hi.
  destruct (str.strip typed) as [|c w] eqn:E; [reflexivity|].
  destruct (history_enter typed st) as [Hh Hc]; [rewrite E; discriminate|].
  fold st1 in Hh, Hc. rewrite E in Hh, Hc.
  assert (String c w ∈ history st1) as Hin.
  { rewrite Hh, history_add_to_history. case_decide; [assumption | left]. }
  clearbody st1. rewrite add_to_history_present by exact Hin.
  destruct st1 as [h cw i t]. cbn in *. subst. reflexivity.
Qed.

(** X19. When the entries of the database carry the codes n, v, a, r and s
    as their parts of speech, every definition of a record built from
    local entries is labelled with one of the five names of the table,
    never as unknown. *)
Theorem local_definitions_named (synsets : string -> list Synset)
    (WORDS_API_KEY : option string)
    (requests_get : string -> string -> HttpOutcome)
    (list_of_set : gset string -> list string) (raw : string)
    (data : WordRecord) :
  (forall synset, synset ∈ synsets (normalize raw) ->
                  wordnet.pos synset ∈ ["n"; "v"; "a"; "r"; "s"]) ->
  synsets (normalize raw) ≠ [] ->
  result (get_word_data synsets WORDS_API_KEY requests_get list_of_set raw)
  = Some data ->
  forall defn,
    defn ∈ definitions data ->
    pos_to_name (pos defn)
    ∈ ["Noun"; "Verb"; "Adjective"; "Adverb"; "Adjective Satellite"].
Proof.
  intros Hpos Hs H defn Hd.
  rewrite (lookup_local_Some _ _ _ _ _ _ Hs H) in Hd.
  rewrite local_record_definitions in Hd.
  apply list_elem_of_fmap in Hd as (s & -> & Hin). cbn [pos sense_of].
  specialize (Hpos s Hin).
  repeat (apply elem_of_cons in Hpos as [-> | Hpos]; [by_evaluation|]).
  inversion Hpos.
Qed.

(** ** The further statements on the sample data *)

(** X1 at the input ["  Happy "]. *)
Lemma lookup_word_normalized_witness :
  result (get_word_data sample.db None sample.no_network elements "  Happy ")
  = Some (local_record elements "happy" [sample.happy])
  /\ word (local_record elements "happy" [sample.happy]) = "happy"
  /\ get_word_data sample.db None sample.no_network elements "happy"
     = get_word_data sample.db None sample.no_network elements "  Happy ".
Proof.
  assert (result (get_word_data sample.db None sample.no_network elements
                                "  Happy ")
          = Some (local_record elements "happy" [sample.happy])) as H
      by reflexivity.
  split; [exact H|].
  destruct (lookup_word_normalized sample.db None sample.no_network elements
              "  Happy " _ H) as (H1 & _ & _ & _ & H2 & _).
  split; [exact H1 | exact H2].
Defined.


(** X4 at the sample endpoint. *)
Lemma remote_record_contents_witness :
  exists data,
    result (get_word_from_api (Some "key") sample.endpoint elements "happy")
    = Some data
    /\ word data = "happy"
    /\ source_of data = remote
    /\ pos_tags data = ["adjective"]
    /\ definitions data = [MkSense "feeling pleasure" "adjective"].
Proof.
  eexists. split; [reflexivity|].
  destruct (remote_record_contents (Some "key") sample.endpoint elements
              "happy" "key" sample.body _ eq_refl eq_refl eq_refl)
    as (H1 & H2 & H3 & H4 & _).
  split; [exact H1|]. split; [exact H2|]. split; [exact H3 | exact H4].
Defined.

(** X5 at the sample endpoint: the word is among its own synonyms. *)
Lemma remote_synonyms_antonyms_witness :
  exists data,
    result (get_word_from_api (Some "key") sample.endpoint elements "happy")
    = Some data
    /\ "happy" ∈ synonyms data.
Proof.
  eexists. split; [reflexivity|].
  apply (remote_synonyms_antonyms (Some "key") sample.endpoint elements
           "happy" "key" sample.body _ eq_refl eq_refl eq_refl).
  eexists. split; [left | left].
Defined.

(** X6 at the sample endpoint. *)
Lemma remote_examples_witness :
  lists_elements elements
  /\ exists data,
       result (get_word_from_api (Some "key") sample.endpoint elements "happy")
       = Some data
       /\ NoDup (examples data)
       /\ length (examples data) = 1.
Proof.
  split; [exact elements_lists_elements|].
  eexists. split; [reflexivity|].
  destruct (remote_examples (Some "key") sample.endpoint elements
              "happy" "key" sample.body _ elements_lists_elements
              eq_refl eq_refl eq_refl) as (H1 & _ & H3).
  split; [exact H1|]. rewrite H3. reflexivity.
Defined.

(** X7 at the input ["Happy"]: the antonym of [glad]. *)
Lemma local_antonyms_witness :
  sample.db (normalize "Happy") ≠ []
  /\ result (get_word_data sample.db None sample.no_network elements "Happy")
     = Some (local_record elements "happy" [sample.happy])
  /\ "sad" ∈ antonyms (local_record elements "happy" [sample.happy]).
Proof.
  assert (sample.db (normalize "Happy") ≠ []) as H1
      by (vm_compute; discriminate).
  assert (result (get_word_data sample.db None sample.no_network elements
                                "Happy")
          = Some (local_record elements "happy" [sample.happy])) as H2
      by reflexivity.
  split; [exact H1|]. split; [exact H2|].
  apply (local_antonyms sample.db None sample.no_network elements "Happy" _
           H1 H2).
  exists sample.happy, (wordnet.MkLemma "glad" [sample.lemma "sad"]),
         (sample.lemma "sad").
  split; [left|]. split; [right; left|].
  split; [left | reflexivity].
Defined.

(** X8 at the input ["Happy"], whose entry has four examples. *)
Lemma local_examples_pos_tags_witness :
  lists_elements elements
  /\ sample.db (normalize "Happy") ≠ []
  /\ result (get_word_data sample.db None sample.no_network elements "Happy")
     = Some (local_record elements "happy" [sample.happy])
  /\ length (examples (local_record elements "happy" [sample.happy])) = 3
  /\ "a" ∈ pos_tags (local_record elements "happy" [sample.happy]).
Proof.
  assert (sample.db (normalize "Happy") ≠ []) as H1
      by (vm_compute; discriminate).
  assert (result (get_word_data sample.db None sample.no_network elements
                                "Happy")
          = Some (local_record elements "happy" [sample.happy])) as H2
      by reflexivity.
  split; [exact elements_lists_elements|]. split; [exact H1|].
  split; [exact H2|].
  destruct (local_examples_pos_tags sample.db None sample.no_network elements
              "Happy" _ elements_lists_elements H1 H2)
    as (_ & _ & H3 & _ & H5 & _).
  split.
  - rewrite H3. vm_compute. reflexivity.
  - apply H5. exists sample.happy. split; [left | reflexivity].
Defined.

(** X9 at the input ["Happy"]: the lemma [well_off]. *)
Lemma local_no_underscore_witness :
  sample.db (normalize "Happy") ≠ []
  /\ result (get_word_data sample.db None sample.no_network elements "Happy")
     = Some (local_record elements "happy" [sample.happy])
  /\ "well off" ∈ synonyms (local_record elements "happy" [sample.happy])
  /\ str.contains str.underscore "well off" = false.
Proof.
  assert (sample.db (normalize "Happy") ≠ []) as H1
      by (vm_compute; discriminate).
  assert (result (get_word_data sample.db None sample.no_network elements
                                "Happy")
          = Some (local_record elements "happy" [sample.happy])) as H2
      by reflexivity.
  assert ("well off" ∈ synonyms (local_record elements "happy" [sample.happy]))
    as H3 by by_evaluation.
  split; [exact H1|]. split; [exact H2|]. split; [exact H3|].
  apply (proj1 (local_no_underscore sample.db None sample.no_network elements
                  "Happy" _ H1 H2)).
  apply elem_of_union. left. exact H3.
Defined.

(** X17 after typing [Cat] and [ dog ]: a click on the first entry. *)
Lemma history_click_looked_up_witness :
  history (page_run [Typed "Cat"; Typed " dog "]) !! 0 = Some "dog"
  /\ display sample.db None sample.no_network elements
             (history_button 0 (page_run [Typed "Cat"; Typed " dog "]))
     = Some (get_word_data sample.db None sample.no_network elements "dog").
Proof.
  assert (history (page_run [Typed "Cat"; Typed " dog "]) !! 0 = Some "dog")
    as H by reflexivity.
  split; [exact H|].
  exact (proj2 (history_click_looked_up sample.db None sample.no_network
                  elements [Typed "Cat"; Typed " dog "] 0 "dog" H)).
Defined.

(** X19 at the input ["Happy"], an adjective. *)
Lemma local_definitions_named_witness :
  sample.db (normalize "Happy") ≠ []
  /\ result (get_word_data sample.db None sample.no_network elements "Happy")
     = Some (local_record elements "happy" [sample.happy])
  /\ forall defn,
       defn ∈ definitions (local_record elements "happy" [sample.happy]) ->
       pos_to_name (pos defn)
       ∈ ["Noun"; "Verb"; "Adjective"; "Adverb"; "Adjective Satellite"].
Proof.
  assert (sample.db (normalize "Happy") ≠ []) as H1
      by (vm_compute; discriminate).
  assert (result (get_word_data sample.db None sample.no_network elements
                                "Happy")
          = Some (local_record elements "happy" [sample.happy])) as H2
      by reflexivity.
  split; [exact H1|]. split; [exact H2|].
  apply (local_definitions_named sample.db None sample.no_network elements
           "Happy" _); [|exact H1 | exact H2].
  intros synset Hs. change (synset ∈ [sample.happy]) in Hs.
  apply list_elem_of_singleton in Hs as ->. by_evaluation.
Defined.

(** X16 in a new session, at the text [ Happy ]. *)
Lemma typed_word_looked_up_witness :
  " Happy " ≠ search_input session_init
  /\ str.strip " Happy " ≠ ""
  /\ display sample.db None sample.no_network elements
             (enter " Happy " session_init)
     = Some (get_word_data sample.db None sample.no_network elements "Happy")
  /\ history (enter " Happy " session_init) = ["Happy"].
Proof.
  assert (" Happy " ≠ search_input session_init) as H0 by discriminate.
  assert (str.strip " Happy " ≠ "") as H1 by (vm_compute; discriminate).
  split; [exact H0|]. split; [exact H1|].
  destruct (typed_word_looked_up sample.db None sample.no_network elements
              " Happy " session_init H0) as [H _].
  destruct (H H1) as (H2 & _ & _ & _).
  split; [exact H2 | reflexivity].
Defined.
